(** * InertiaLinker: link resolution of the AdonisJS editor extension

    A shallow embedding of [InertiaLinker] (position mapper, path
    resolution, link assembly through [Promise.all]) and of
    [DocumentLinkFactory.fromViewLink], with the properties of the
    resolution engine stated over it.

    JavaScript strings are modelled as [string] (a sequence of code
    units); JavaScript numbers that may be [-1] are [Z]. *)

From Stdlib Require Import ZArith Ascii String.
From stdpp Require Import base list strings.

Local Open Scope Z_scope.
Local Open Scope string_scope.

(** ** Outcomes of fallible code *)

(** What a rejected promise or a [throw] carries. *)
Inductive JsError : Type :=
| TypeError (msg : string)
| IllegalArgument (msg : string)
| SearchError (code : string).

(** A synchronous call returns or throws; an awaited promise fulfils
    or rejects. *)
Inductive Result (A : Type) : Type :=
| Ok (a : A)
| Throw (e : JsError).
Arguments Ok {A} a.
Arguments Throw {A} e.

Definition bindR {A B} (r : Result A) (k : A → Result B) : Result B :=
  match r with
  | Ok a => k a
  | Throw e => Throw e
  end.

(** ** String and array primitives used by the linker *)

Module Js.

(** [s.split(sep)] for a one-character separator. *)
Fixpoint split (sep : ascii) (s : string) : list string :=
  match s with
  | EmptyString => [EmptyString]
  | String c s' =>
      if Ascii.eqb c sep then EmptyString :: split sep s'
      else match split sep s' with
           | l :: ls => String c l :: ls
           | [] => [String c EmptyString]
           end
  end.

(** [hay.indexOf(needle)]: [-1] when absent. *)
Definition indexOf (hay needle : string) : Z :=
  match String.index 0 needle hay with
  | Some n => Z.of_nat n
  | None => -1
  end.

(** [hay.includes(needle)]. *)
Definition includes (hay needle : string) : bool :=
  match String.index 0 needle hay with
  | Some _ => true
  | None => false
  end.

(** [arr.findIndex(p)]: index of the first element satisfying [p],
    [-1] when there is none. *)
Fixpoint findIndexFrom {A} (i : Z) (p : A → bool) (arr : list A) : Z :=
  match arr with
  | [] => -1
  | x :: arr' => if p x then i else findIndexFrom (i + 1) p arr'
  end.

Definition findIndex {A} (p : A → bool) (arr : list A) : Z :=
  findIndexFrom 0 p arr.

(** [arr[i]]: [undefined] (here [None]) outside the array, also for a
    negative index. *)
Definition get {A} (arr : list A) (i : Z) : option A :=
  if (i <? 0)%Z then None else arr !! Z.to_nat i.

(** [s.slice(a, b)] for [0 <= a <= b]. *)
Definition slice (s : string) (a b : Z) : string :=
  String.substring (Z.to_nat a) (Z.to_nat (b - a)) s.

(** [s.replace(/c/g, by)] for a pattern that matches single
    characters: every character accepted by [p] becomes [by]. *)
Fixpoint replaceAll (p : ascii → bool) (by_ : string) (s : string) : string :=
  match s with
  | EmptyString => EmptyString
  | String c s' =>
      if p c then by_ ++ replaceAll p by_ s'
      else String c (replaceAll p by_ s')
  end.

End Js.

(** ** Data model *)

(** A [RegExpMatchArray]: [match[0]], [match[1]] (asserted non-null by
    the source) and [match.index]. *)
Record RegExpMatchArray : Type := {
  m_full : string;
  m_group1 : string;
  m_index : Z;
}.

Record Position : Type := {
  line : Z;
  colStart : Z;
  colEnd : Z;
}.

(** [InertiaLink]: [templatePath] is [string | null]. *)
Record InertiaLink : Type := {
  templatePath : option string;
  position : Position;
}.

(** The part of [AdonisProject] the linker reads. *)
Record AdonisProject : Type := {
  path : string;
}.

(** ** Position mapper *)

Definition newline : ascii := "010"%char.

(** [InertiaLinker.#matchIndexToPosition].  When no line contains the
    capture, [findIndex] gives [-1], [lines[-1]] is [undefined] and
    calling [indexOf] on it throws. *)
Definition matchIndexToPosition (fileContent : string) (m : RegExpMatchArray)
  : Result Position :=
  let lines := Js.split newline fileContent in
  let line := Js.findIndex (λ l, Js.includes l (m_group1 m)) lines in
  match Js.get lines line with
  | None => Throw (TypeError "Cannot read properties of undefined (reading 'indexOf')")
  | Some l =>
      let colStart := Js.indexOf l (m_group1 m) in
      let colEnd := colStart + Z.of_nat (String.length (m_group1 m)) in
      Ok {| line := line; colStart := colStart; colEnd := colEnd |}
  end.

(** ** External collaborators *)

(** Options passed to the glob search. *)
Record FgOptions : Type := {
  onlyFiles : bool;
  caseSensitiveMatch : bool;
  cwd : string;
}.

(** What the linker imports and does not define: [join] from [path],
    [slash], the glob search [fg] (whose promise fulfils with the list
    of entries or rejects, depending on the state of the file system),
    and the result of [text.matchAll(inertiaRegex)] for the pattern of
    [utilities/regexes]. *)
Class Host : Type := {
  FileSystem : Type;
  join : list string → string;
  slash : string → string;
  fg : FileSystem → string → FgOptions → Result (list string);
  matchAllInertia : string → list RegExpMatchArray;
}.

(** ** Promises *)

Inductive PromiseState (A : Type) : Type :=
| Pending
| Fulfilled (a : A)
| Rejected (e : JsError).
Arguments Pending {A}.
Arguments Fulfilled {A} a.
Arguments Rejected {A} e.

Module PromiseAll.

(** [Promise.all] keeps an array of values written by index and a
    count of the elements still awaited; once settled it stays so. *)
Inductive progress (A : Type) : Type :=
| Collecting (values : list (option A)) (remaining : nat)
| Settled (r : Result (list (option A))).
Arguments Collecting {A} values remaining.
Arguments Settled {A} r.

Definition init {A} (outcomes : list (Result A)) : progress A :=
  match outcomes with
  | [] => Settled (Ok [])
  | _ => Collecting (replicate (length outcomes) None) (length outcomes)
  end.

(** The [i]-th promise settles. *)
Definition settle {A} (outcomes : list (Result A)) (st : progress A) (i : nat)
  : progress A :=
  match st with
  | Settled r => Settled r
  | Collecting values remaining =>
      match outcomes !! i with
      | None => st
      | Some (Throw e) => Settled (Throw e)
      | Some (Ok v) =>
          let values' := <[i := Some v]> values in
          match remaining with
          | 1%nat => Settled (Ok values')
          | _ => Collecting values' (remaining - 1)
          end
      end
  end.

(** [await Promise.all(promises)] when the promises settle in the
    order [schedule]. *)
Definition run {A} (outcomes : list (Result A)) (schedule : list nat)
  : PromiseState (list (option A)) :=
  match foldl (settle outcomes) (init outcomes) schedule with
  | Collecting _ _ => Pending
  | Settled (Ok values) => Fulfilled values
  | Settled (Throw e) => Rejected e
  end.

(** The rejection reached first when the promises settle in the
    order [schedule]. *)
Fixpoint firstRejection {A} (outcomes : list (Result A)) (schedule : list nat)
  : option JsError :=
  match schedule with
  | [] => None
  | i :: rest =>
      match outcomes !! i with
      | Some (Throw e) => Some e
      | _ => firstRejection outcomes rest
      end
  end.

(** The values array after the fulfilments of [schedule]. *)
Definition fill {A} (outcomes : list (Result A)) (values : list (option A))
    (schedule : list nat) : list (option A) :=
  foldl (λ vals i,
           match outcomes !! i with
           | Some (Ok v) => <[i := Some v]> vals
           | _ => vals
           end) values schedule.

Definition valueOf {A} (o : Result A) : option A :=
  match o with
  | Ok v => Some v
  | Throw _ => None
  end.

End PromiseAll.

(** [Boolean(v)] for a value that is an object or [undefined]. *)
Definition Boolean {A} (v : option A) : bool :=
  match v with
  | Some _ => true
  | None => false
  end.

(** [arr.filter(Boolean)]: the entries that are objects. *)
Definition filterBoolean {A} (arr : list (option A)) : list A :=
  omap id (filter (λ v, Boolean v = true) arr).

(** ** The linker *)

Definition isQuote (c : ascii) : bool :=
  Ascii.eqb c "034"%char || Ascii.eqb c "039"%char.

Definition isDot (c : ascii) : bool := Ascii.eqb c "."%char.

(** The first [replace] of the callback: every double or single quote
    character of [match[1]] is removed. *)
Definition stripQuotes (capture : string) : string :=
  Js.replaceAll isQuote EmptyString capture.

(** [fileName]: the quotes removed, then every dot replaced by a
    forward slash. *)
Definition fileNameOf (m : RegExpMatchArray) : string :=
  Js.replaceAll isDot "/" (stripQuotes (m_group1 m)).

Section Linker.
Context `{H : Host}.

(** [slash(join(project.path, pagesDirectory, `${fileName}.vue`))]. *)
Definition searchPattern (project : AdonisProject) (pagesDirectory : string)
    (m : RegExpMatchArray) : string :=
  slash (join [path project; pagesDirectory; fileNameOf m ++ ".vue"]).

Definition searchOptions (project : AdonisProject) : FgOptions :=
  {| onlyFiles := true;
     caseSensitiveMatch := false;
     cwd := slash (path project) |}.

(** The callback given to [matchesArray.map]: the outcome of the
    promise it returns.  The search is awaited first, the position is
    computed after it. *)
Definition resolveMatch (fs : FileSystem) (fileContent : string)
    (project : AdonisProject) (pagesDirectory : string)
    (m : RegExpMatchArray) : Result InertiaLink :=
  bindR (fg fs (searchPattern project pagesDirectory m) (searchOptions project))
    (λ files,
      bindR (matchIndexToPosition fileContent m)
        (λ position,
          match files with
          | [] => Ok {| templatePath := None; position := position |}
          | file0 :: _ =>
              Ok {| templatePath := Some (slash file0); position := position |}
          end)).

(** [InertiaLinker.getLinks], under a file system state and an order
    in which the per-match promises settle. *)
Definition getLinks (fs : FileSystem) (schedule : list nat)
    (fileContent : string) (project : AdonisProject) (pagesDirectory : string)
  : PromiseState (list InertiaLink) :=
  let matchesArray := matchAllInertia fileContent in
  let promises := map (resolveMatch fs fileContent project pagesDirectory) matchesArray in
  match PromiseAll.run promises schedule with
  | Pending => Pending
  | Rejected e => Rejected e
  | Fulfilled result => Fulfilled (filterBoolean result)
  end.

End Linker.

(** ** The caller: [DocumentLinkFactory.fromViewLink] *)

(** The editor's value classes, as far as the factory uses them. *)
Module Vscode.

Record Position : Type := { line : Z; character : Z }.

(** [new Position(line, character)] refuses negative arguments. *)
Definition newPosition (line character : Z) : Result Position :=
  if (line <? 0)%Z then Throw (IllegalArgument "line must be non-negative")
  else if (character <? 0)%Z then Throw (IllegalArgument "character must be non-negative")
  else Ok {| line := line; character := character |}.

Definition isBefore (a b : Position) : bool :=
  (line a <? line b)%Z || ((line a =? line b)%Z && (character a <? character b)%Z).

Record Range : Type := { start : Position; end_ : Position }.

(** [new Range(start, end)] orders its two ends. *)
Definition newRange (a b : Position) : Range :=
  if isBefore a b then {| start := a; end_ := b |}
  else {| start := b; end_ := a |}.

(** [range.isEmpty]: both ends are the same position. *)
Definition isEmpty (r : Range) : bool :=
  (line (start r) =? line (end_ r))%Z
  && (character (start r) =? character (end_ r))%Z.

Record DocumentLink (Uri : Type) : Type := { range : Range; target : Uri }.
Arguments range {Uri} _.
Arguments target {Uri} _.

(** [new DocumentLink(range, target)] refuses an empty range. *)
Definition newDocumentLink {Uri : Type} (r : Range) (t : Uri)
  : Result (DocumentLink Uri) :=
  if isEmpty r then Throw (IllegalArgument "range")
  else Ok {| range := r; target := t |}.

End Vscode.

(** [ViewLink] has the fields of [InertiaLink]. *)
Abbreviation ViewLink := InertiaLink.

(** [arr.map(f)] for a callback that may throw: the first throw ends
    the call. *)
Fixpoint mapR {A B} (f : A → Result B) (arr : list A) : Result (list B) :=
  match arr with
  | [] => Ok []
  | x :: arr' =>
      bindR (f x) (λ y, bindR (mapR f arr') (λ ys, Ok (y :: ys)))
  end.

Section Factory.
(** [Uri] and [Uri.parse(pathToFileURL(p).href)]. *)
Variable Uri : Type.
Variable fileUri : string → Uri.

(** The callback of [map] in [fromViewLink]; [pathToFileURL] throws
    on a value that is not a string, the constructors of [Position]
    and of [DocumentLink] on the arguments they refuse. *)
Definition toDocumentLink (link : ViewLink) : Result (Vscode.DocumentLink Uri) :=
  bindR (match templatePath link with
         | Some p => Ok (fileUri p)
         | None => Throw (TypeError "ERR_INVALID_ARG_TYPE")
         end)
    (λ templateUri,
      bindR (Vscode.newPosition (line (position link)) (colStart (position link)))
        (λ start,
          bindR (Vscode.newPosition (line (position link)) (colEnd (position link)))
            (λ end_,
              Vscode.newDocumentLink (Vscode.newRange start end_) templateUri))).

(** [links.filter((link) => link.templatePath !== null)]. *)
Definition hasTemplate (links : list ViewLink) : list ViewLink :=
  filter (λ link, templatePath link ≠ None) links.

Definition fromViewLink (links : list ViewLink)
  : Result (list (Vscode.DocumentLink Uri)) :=
  mapR toDocumentLink (hasTemplate links).

End Factory.

(** ** A host for concrete runs *)

(** The collaborators on a POSIX platform, over a disk given as the
    list of its files: [path.posix.join], [slash], a glob search for
    patterns without wildcards, and a stand-in for the pattern of
    [utilities/regexes]. *)
Module Posix.

Definition slashChar : ascii := "/"%char.
Definition backslash : ascii := "092"%char.

Fixpoint joinWith (sep : string) (parts : list string) : string :=
  match parts with
  | [] => EmptyString
  | [p] => p
  | p :: parts' => p ++ sep ++ joinWith sep parts'
  end.

(** [normalizeString]: empty and [.] segments vanish, [..] removes
    the segment before it. [acc] is the result so far, reversed. *)
Fixpoint normalizeSegments (allowAboveRoot : bool) (acc segs : list string)
  : list string :=
  match segs with
  | [] => reverse acc
  | seg :: segs' =>
      if bool_decide (seg = EmptyString ∨ seg = ".") then
        normalizeSegments allowAboveRoot acc segs'
      else if bool_decide (seg = "..") then
        match acc with
        | last :: acc' =>
            if bool_decide (last = "..") then
              normalizeSegments allowAboveRoot
                (if allowAboveRoot then ".." :: acc else acc) segs'
            else normalizeSegments allowAboveRoot acc' segs'
        | [] =>
            normalizeSegments allowAboveRoot
              (if allowAboveRoot then [".."] else []) segs'
        end
      else normalizeSegments allowAboveRoot (seg :: acc) segs'
  end.

Definition lastChar (s : string) : option ascii :=
  String.get (String.length s - 1) s.

(** [path.posix.normalize]. *)
Definition normalize (p : string) : string :=
  match p with
  | EmptyString => "."
  | String c _ =>
      let isAbsolute := Ascii.eqb c slashChar in
      let trailingSeparator := bool_decide (lastChar p = Some slashChar) in
      let body :=
        joinWith "/" (normalizeSegments (negb isAbsolute) [] (Js.split slashChar p)) in
      match body with
      | EmptyString =>
          if isAbsolute then "/" else if trailingSeparator then "./" else "."
      | _ =>
          let body' := if trailingSeparator then body ++ "/" else body in
          if isAbsolute then "/" ++ body' else body'
      end
  end.

(** [path.posix.join]: the non-empty arguments joined by a slash,
    then normalized. *)
Definition join (args : list string) : string :=
  match filter (λ a, a ≠ EmptyString) args with
  | [] => "."
  | parts => normalize (joinWith "/" parts)
  end.

(** [slash]: backslashes become forward slashes, except in an
    extended-length path. *)
Definition slash (p : string) : string :=
  if String.prefix (String backslash (String backslash (String "?" (String backslash EmptyString)))) p
  then p
  else Js.replaceAll (Ascii.eqb backslash) "/" p.

Definition toLower (c : ascii) : ascii :=
  let n := nat_of_ascii c in
  if (65 <=? n)%nat && (n <=? 90)%nat then ascii_of_nat (n + 32) else c.

Fixpoint lower (s : string) : string :=
  match s with
  | EmptyString => EmptyString
  | String c s' => String (toLower c) (lower s')
  end.

(** A disk: its files (absolute paths, in enumeration order) and the
    directories that cannot be read. *)
Record Disk : Type := {
  files : list string;
  denied : list string;
}.

(** The glob search for a pattern without wildcards: the files equal
    to the pattern up to case when [caseSensitiveMatch] is off; the
    search fails when the pattern lies under an unreadable directory. *)
Definition fg (disk : Disk) (pattern : string) (opts : FgOptions)
  : Result (list string) :=
  if existsb (λ d, String.prefix d pattern) (denied disk) then
    Throw (SearchError "EACCES")
  else
    Ok (List.filter (λ f,
                  if caseSensitiveMatch opts then String.eqb f pattern
                  else String.eqb (lower f) (lower pattern))
          (files disk)).

(** Modelled from the spec: the pattern [inertiaRegex] of
    [utilities/regexes] is not among the sources; the spec asks for a
    pattern with one capture group holding the string argument of a
    render call.  This stand-in reports, left to right and without
    overlap, every [render('] followed by a non-empty run of
    characters other than the single quote and a closing single
    quote; group 1 is the run. *)
Definition opener : string := "render('".

Fixpoint untilQuote (s : string) : option string :=
  match s with
  | EmptyString => None
  | String c s' =>
      if Ascii.eqb c "039"%char then Some EmptyString
      else option_map (String c) (untilQuote s')
  end.

Definition matchAt (i : Z) (s : string) : option RegExpMatchArray :=
  if String.prefix opener s then
    match untilQuote (String.substring (String.length opener) (String.length s) s) with
    | Some EmptyString | None => None
    | Some capture =>
        Some {| m_full := opener ++ capture ++ "'";
                m_group1 := capture;
                m_index := i |}
    end
  else None.

Fixpoint scan (skip : nat) (i : Z) (s : string) : list RegExpMatchArray :=
  match s with
  | EmptyString => []
  | String _ s' =>
      match skip with
      | S k => scan k (i + 1) s'
      | O =>
          match matchAt i s with
          | Some m => m :: scan (String.length (m_full m) - 1) (i + 1) s'
          | None => scan 0 (i + 1) s'
          end
      end
  end.

Definition matchAll (text : string) : list RegExpMatchArray := scan 0 0 text.

End Posix.

#[export] Instance posixHost : Host := {|
  FileSystem := Posix.Disk;
  join := Posix.join;
  slash := Posix.slash;
  fg := Posix.fg;
  matchAllInertia := Posix.matchAll;
|}.

(** ** Vocabulary of the statements *)

(** The number of offsets of [hay] at which [needle] occurs. *)
Fixpoint occurrences (needle hay : string) : nat :=
  match hay with
  | EmptyString => if String.prefix needle hay then 1 else 0
  | String _ hay' =>
      ((if String.prefix needle hay then 1 else 0) + occurrences needle hay')%nat
  end.

(** Whether the character [c] stands somewhere in [s]. *)
Fixpoint containsChar (c : ascii) (s : string) : bool :=
  match s with
  | EmptyString => false
  | String a s' => Ascii.eqb a c || containsChar c s'
  end.

(** The search pattern with an extension chosen per project: the
    quotes stripped, the dots turned into separators, and
    [projectRoot / baseDir / converted.extension] joined. *)
Definition searchPatternWithExtension `{H : Host}
    (projectRoot baseDir extension capture : string) : string :=
  slash (join [projectRoot; baseDir;
               Js.replaceAll isDot "/" (stripQuotes capture) ++ "." ++ extension]).

(** The document link expected for a link whose template is [p]: the
    range from [colStart] to [colEnd] on the line of the link, and the
    file URI of [p]. *)
Definition documentLinkOf {Uri : Type} (fileUri : string → Uri)
    (link : ViewLink) (p : string) : Vscode.DocumentLink Uri :=
  {| Vscode.range :=
       {| Vscode.start := {| Vscode.line := line (position link);
                             Vscode.character := colStart (position link) |};
          Vscode.end_ := {| Vscode.line := line (position link);
                            Vscode.character := colEnd (position link) |} |};
     Vscode.target := fileUri p |}.

(** A link whose position has no negative component and whose columns
    are in order. *)
Definition wellPlaced (link : ViewLink) : Prop :=
  (0 ≤ line (position link) ∧ 0 ≤ colStart (position link)
   ∧ colStart (position link) ≤ colEnd (position link))%Z.

(** Inputs of the concrete runs. *)
Module Sample.

Definition nl : string := String newline EmptyString.

Definition project : AdonisProject := {| path := "/proj" |}.

Definition disk : Posix.Disk :=
  {| Posix.files := ["/proj/pages/users/Show.vue"; "/proj/pages/Home.vue"];
     Posix.denied := [] |}.

(** The same files, with a directory that cannot be read. *)
Definition lockedDisk : Posix.Disk :=
  {| Posix.files := ["/proj/pages/users/Show.vue"; "/proj/pages/Home.vue"];
     Posix.denied := ["/proj/pages/admin"] |}.

Definition controller : string :=
  "return inertia.render('users.show')" ++ nl ++ "return inertia.render('home')".

Definition controllerWithAdmin : string :=
  "return inertia.render('home')" ++ nl ++ "return inertia.render('admin.users')".

Definition usersShow : RegExpMatchArray :=
  {| m_full := "render('users.show'"; m_group1 := "users.show"; m_index := 15 |}.

Definition home : RegExpMatchArray :=
  {| m_full := "render('home'"; m_group1 := "home"; m_index := 51 |}.

Definition homeFirst : RegExpMatchArray :=
  {| m_full := "render('home'"; m_group1 := "home"; m_index := 15 |}.

Definition adminUsers : RegExpMatchArray :=
  {| m_full := "render('admin.users'"; m_group1 := "admin.users"; m_index := 45 |}.

End Sample.

(** ** Text helpers of the commands *)

Module Text.

(** The characters of [\s] among the code units modelled: tab, line
    feed, vertical tab, form feed, carriage return, space and the
    no-break space. *)
Definition isWhiteSpace (c : ascii) : bool :=
  let n := nat_of_ascii c in
  ((9 <=? n)%nat && (n <=? 13)%nat) || (n =? 32)%nat || (n =? 160)%nat.

(** The characters the dot of a pattern does not match. *)
Definition isLineTerminator (c : ascii) : bool :=
  let n := nat_of_ascii c in
  (n =? 10)%nat || (n =? 13)%nat.

(** [s.replace(/\s\s+/g, ' ')]: every run of two or more white space
    characters becomes one space.  [skipping] holds inside a run that
    has been replaced already. *)
Fixpoint collapseFrom (skipping : bool) (s : string) : string :=
  match s with
  | EmptyString => EmptyString
  | String c s' =>
      if isWhiteSpace c then
        if skipping then collapseFrom true s'
        else
          match s' with
          | String d _ =>
              if isWhiteSpace d then String " " (collapseFrom true s')
              else String c (collapseFrom false s')
          | EmptyString => String c EmptyString
          end
      else String c (collapseFrom false s')
  end.

Definition collapseWhiteSpace (s : string) : string := collapseFrom false s.

Fixpoint trimStart (s : string) : string :=
  match s with
  | EmptyString => EmptyString
  | String c s' => if isWhiteSpace c then trimStart s' else s
  end.

Fixpoint trimEnd (s : string) : string :=
  match s with
  | EmptyString => EmptyString
  | String c s' =>
      match trimEnd s' with
      | EmptyString => if isWhiteSpace c then EmptyString else String c EmptyString
      | t => String c t
      end
  end.

(** [s.trim()]. *)
Definition trim (s : string) : string := trimEnd (trimStart s).

(** [s.startsWith('/')]. *)
Definition startsWithSlash (s : string) : bool :=
  match s with
  | String c _ => Ascii.eqb c "/"
  | EmptyString => false
  end.

(** [s.substring(1)]. *)
Definition substring1 (s : string) : string :=
  match s with
  | String _ s' => s'
  | EmptyString => EmptyString
  end.

(** [s.toLowerCase()] on the code units modelled: the letters A to Z
    and the upper case letters of Latin-1. *)
Definition toLowerChar (c : ascii) : ascii :=
  let n := nat_of_ascii c in
  if ((65 <=? n)%nat && (n <=? 90)%nat)
     || ((192 <=? n)%nat && (n <=? 222)%nat && negb (n =? 215)%nat)
  then ascii_of_nat (n + 32) else c.

Fixpoint toLowerCase (s : string) : string :=
  match s with
  | EmptyString => EmptyString
  | String c s' => String (toLowerChar c) (toLowerCase s')
  end.

(** [a || b] on strings: [b] when [a] is undefined or empty. *)
Definition orElse (a : option string) (b : string) : string :=
  match a with
  | Some (String c s) => String c s
  | _ => b
  end.

Definition doubleQuote : string := String "034" EmptyString.

(** A text between double quotes, as the templates of the commands
    write it. *)
Definition quoted (s : string) : string := doubleQuote ++ s ++ doubleQuote.

(** [parts.join(sep)]. *)
Fixpoint joinWith (sep : string) (parts : list string) : string :=
  match parts with
  | [] => EmptyString
  | [p] => p
  | p :: parts' => p ++ sep ++ joinWith sep parts'
  end.

End Text.

(** ** The terminals of the editor window *)

(** The terminals opened in the window, in the order of their
    creation, and the active one.  A terminal is referred to by its
    index; [show] makes a terminal the active one. *)
Module Editor.

Record Terminal : Type := {
  name : string;
  shellPath : option string;
  sent : list string;
}.

Record Window : Type := {
  terminals : list Terminal;
  activeTerminal : option nat;
}.

(** [window.createTerminal(name, shellPath)]. *)
Definition createTerminal (name : string) (shellPath : option string) (w : Window)
  : nat * Window :=
  (length (terminals w),
   {| terminals := terminals w ++ [{| name := name; shellPath := shellPath; sent := [] |}];
      activeTerminal := activeTerminal w |}).

(** [terminal.show()]. *)
Definition show (i : nat) (w : Window) : Window :=
  {| terminals := terminals w; activeTerminal := Some i |}.

(** [terminal.sendText(text)]. *)
Definition sendText (i : nat) (text : string) (w : Window) : Window :=
  {| terminals :=
       alter (λ t, {| name := name t; shellPath := shellPath t;
                      sent := sent t ++ [text] |}) i (terminals w);
     activeTerminal := activeTerminal w |}.

Definition aceTerminalName : string := "AdonisJS Ace".

Definition isAce (t : Terminal) : bool := String.eqb (name t) aceTerminalName.

End Editor.

(** ** [AceExecutor] *)

Module AceExecutor.

(** [ExtConfig.misc], as far as the executor reads it. *)
Record Misc : Type := {
  nodePath : option string;
  useUnixCd : bool;
}.

Record ExecOptions : Type := {
  adonisProject : AdonisProject;
  command : string;
  background : option bool;
}.

(** The options handed to [execaNode]. *)
Record NodeOptions : Type := {
  cwd : string;
  nodeOptionsPath : option string;
}.

Record ExecReturn (R : Type) : Type := {
  result : option R;
  returnedProject : AdonisProject;
}.
Arguments result {R} _.
Arguments returnedProject {R} _.

Section Exec.
(** [process.platform], the configuration, and [execaNode]: the
    outcome of running a script with arguments. *)
Variables (platform : string) (misc : Misc).
Variables (E R : Type) (execaNode : string → list string → NodeOptions → E + R).

Definition isWindows : bool := String.eqb platform "win32".

Definition shellPath : option string :=
  if isWindows then Some "cmd.exe" else None.

(** [AceExecutor.sendTextToAdonisTerminal]. *)
Definition sendTextToAdonisTerminal (command : string) (w : Editor.Window)
  : Editor.Window :=
  let '(i, w1) :=
    match list_find (λ t, Editor.name t = "AdonisJS Ace") (Editor.terminals w) with
    | Some (i, _) => (i, w)
    | None => Editor.createTerminal "AdonisJS Ace" shellPath w
    end in
  Editor.sendText i command (Editor.show i w1).

(** The project path as the executor uses it. *)
Definition execPath (project : AdonisProject) : string :=
  if isWindows && Text.startsWithSlash (path project)
  then Text.substring1 (path project)
  else path project.

(** The text typed into the terminal in the foreground. *)
Definition terminalText (p : string) (command : string) : string :=
  let nodePath := Text.orElse (nodePath misc) "node" in
  let command := Text.quoted nodePath ++ " ace " ++ command in
  if isWindows && negb (useUnixCd misc)
  then "cd /d " ++ Text.quoted p ++ " && " ++ command
  else "cd " ++ Text.quoted p ++ " && " ++ command.

(** [AceExecutor.exec]: the outcome of the promise and the window
    afterwards. *)
Definition exec (options : ExecOptions) (w : Editor.Window)
  : (E + ExecReturn R) * Editor.Window :=
  let p := execPath (adonisProject options) in
  if default true (background options) then
    match execaNode "ace" (Js.split " " (command options))
            {| cwd := p; nodeOptionsPath := nodePath misc |} with
    | inl e => (inl e, w)
    | inr r => (inr {| result := Some r;
                       returnedProject := adonisProject options |}, w)
    end
  else
    (inr {| result := None; returnedProject := adonisProject options |},
     sendTextToAdonisTerminal (terminalText p (command options)) w).

End Exec.

End AceExecutor.

(** ** [BaseCommand] and [Configure] *)

Module Command.

(** [AdonisProject] of [Extension]. *)
Record Project : Type := {
  name : string;
  path : string;
}.

Record ExecResult : Type := {
  stdout : string;
  stderr : string;
}.

(** What the promise of [execCmd] rejects with, or what the [try] of
    [handleExecCmd] catches. *)
Inductive CmdError : Type :=
| SelectionNeeded
| ExecFailure (message : string)
| UndefinedRead (property : string).

Record QuickPickItem : Type := {
  label : string;
  description : string;
}.

(** The calls made to the editor and to the system, in order. *)
Inductive Event : Type :=
| ShowInformationMessage (message : string)
| ShowErrorMessage (message : string)
| OutputAppendLine (err : CmdError)
| OutputShow
| ShowInputBox (placeHolder : string)
| ShowQuickPick (items : list QuickPickItem) (placeHolder : string)
| OpenTextDocument (file : string)
| ShowTextDocument (file : string)
| ExecuteCommand (id : string)
| ConsoleLog (file : string)
| Exec (command cwd : string).

(** The projects of the workspace (objects shared by every command),
    the window, and the calls made so far. *)
Record World : Type := {
  projects : list Project;
  window : Editor.Window;
  events : list Event;
}.

(** What the commands read and do not define: the platform, the
    configuration, [capitalize] of the utilities, [join] of [path], the
    outcome of [exec] for a command line and a working directory (the
    message of its failure, or its output), and whether a document can
    be opened. *)
Record Env : Type := {
  platform : string;
  nodePath : option string;
  useUnixCd : bool;
  capitalize : string → string;
  join : list string → string;
  exec : string → string → string + ExecResult;
  openTextDocument : string → bool;
}.

Inductive Outcome (A : Type) : Type :=
| Done (a : A)
| Failed (e : CmdError).
Arguments Done {A} a.
Arguments Failed {A} e.

(** An asynchronous method: from a world to its outcome and the world
    afterwards. *)
Definition Cmd (A : Type) : Type := World → Outcome A * World.

Definition ret {A} (a : A) : Cmd A := λ w, (Done a, w).

Definition bind {A B} (m : Cmd A) (k : A → Cmd B) : Cmd B :=
  λ w, match m w with
       | (Done a, w') => k a w'
       | (Failed e, w') => (Failed e, w')
       end.

Definition reject {A} (e : CmdError) : Cmd A := λ w, (Failed e, w).

Definition tryCatch {A} (m : Cmd A) (handler : CmdError → Cmd A) : Cmd A :=
  λ w, match m w with
       | (Done a, w') => (Done a, w')
       | (Failed e, w') => handler e w'
       end.

Definition emit (e : Event) : Cmd unit :=
  λ w, (Done tt, {| projects := projects w; window := window w;
                    events := events w ++ [e] |}).

Notation "'let*' x ':=' m 'in' k" := (bind m (λ x, k))
  (at level 10, x name, m at level 100, k at level 200, only parsing).
Notation "m ';;' k" := (bind m (λ _, k))
  (at level 100, k at level 200, right associativity, only parsing).

Section Methods.
Variable env : Env.

(** [BaseCommand.showMessage]. *)
Definition showMessage (message : string) : Cmd unit :=
  emit (ShowInformationMessage message).

(** [BaseCommand.showError]. *)
Definition showError (message : string) (consoleErr : option CmdError) : Cmd bool :=
  let* message :=
    match consoleErr with
    | Some err =>
        emit (OutputAppendLine err);;
        emit OutputShow;;
        ret (message ++ " (See output console for more details)")
    | None => ret message
    end in
  emit (ShowErrorMessage message);;
  ret false.

(** [BaseCommand.getYesNo], given what the quick pick returns. *)
Definition getYesNo (answer : option string) : bool :=
  match answer with
  | Some value => String.eqb (Text.toLowerCase value) "yes"
  | None => false
  end.

(** [BaseCommand.getInput], given what the input box returns. *)
Definition getInput (placeHolder : string) (answer : option string) : Cmd string :=
  emit (ShowInputBox (Text.trim (Text.collapseWhiteSpace placeHolder)));;
  ret (match answer with
       | None => EmptyString
       | Some name => name
       end).

(** The continuation of [openFile] once the document is there, or not. *)
Definition showOpened (file : string) : Cmd unit :=
  if openTextDocument env file then
    emit (ShowTextDocument file);;
    emit (ExecuteCommand "workbench.files.action.refreshFilesExplorer")
  else emit (ConsoleLog file).

(** [BaseCommand.openFile]: the document is asked for at once; the rest
    runs when the request settles and is returned as a continuation. *)
Definition openFile (p filename : string) : Cmd (Cmd unit) :=
  let file := join env [p; filename] in
  emit (OpenTextDocument file);;
  ret (showOpened file).

Definition createMarker : string := "CREATE: ".

(** The longest run without a line terminator at the head of [s]. *)
Fixpoint takeLine (s : string) : string :=
  match s with
  | EmptyString => EmptyString
  | String c s' =>
      if Text.isLineTerminator c then EmptyString else String c (takeLine s')
  end.

Fixpoint dropChars (n : nat) (s : string) : string :=
  match n, s with
  | S n', String _ s' => dropChars n' s'
  | _, _ => s
  end.

(** [BaseCommand.parseCreatedFilename]: the first place that follows
    the marker and starts a non-empty run of characters other than line
    terminators; the run is the match. *)
Fixpoint parseCreatedFilename (stdout : string) : option string :=
  match stdout with
  | EmptyString => None
  | String _ rest =>
      if String.prefix createMarker stdout then
        match takeLine (dropChars (String.length createMarker) stdout) with
        | EmptyString => parseCreatedFilename rest
        | filename => Some filename
        end
      else parseCreatedFilename rest
  end.

(** [BaseCommand.openCreatedFile]; called without [await], it leaves
    the continuation of [openFile] behind. *)
Definition openCreatedFile (adonisProject : Project) (stdout : string)
  : Cmd (Cmd unit) :=
  match stdout with
  | EmptyString => ret (ret tt)
  | _ =>
      match parseCreatedFilename stdout with
      | Some (String c s) => openFile (path adonisProject) (String c s)
      | _ => ret (ret tt)
      end
  end.

(** A project of the workspace, by its index among the projects. *)
Definition findProject (ps : list Project) (target : option QuickPickItem)
  : option (nat * Project) :=
  list_find (λ project, Some (path project) = description <$> target) ps.

(** [BaseCommand.pickAdonisProject], given the index of the item the
    user picks in the quick pick, if any. *)
Definition pickAdonisProject (pick : option nat) : Cmd (option (nat * Project)) :=
  λ w,
    match projects w with
    | [project] => ret (Some (0%nat, project)) w
    | adonisProjects =>
        let items :=
          map (λ project, {| label := name project; description := path project |})
            adonisProjects in
        (emit (ShowQuickPick items
                 "Select the project in which you want to run this command");;
         ret (findProject adonisProjects (pick ≫= (items !!.)))) w
    end.

(** [BaseCommand.sendTextToAdonisTerminal]. *)
Definition sendTextToAdonisTerminal (command : string) : Cmd unit :=
  λ w,
    let win := window w in
    let active := Editor.activeTerminal win ≫= (Editor.terminals win !!.) in
    let '(i, win1) :=
      match Editor.activeTerminal win, active with
      | Some i, Some t =>
          if bool_decide (Editor.name t = "AdonisJS Ace") then (i, win)
          else Editor.createTerminal "AdonisJS Ace" None win
      | _, _ => Editor.createTerminal "AdonisJS Ace" None win
      end in
    (Done tt,
     {| projects := projects w;
        window := Editor.sendText i command (Editor.show i win1);
        events := events w |}).

Record ExecCmdReturn : Type := {
  adonisProject : Project;
  result : option ExecResult;
}.

(** The assignment to [adonisProject.path]: the object is one of the
    projects of the workspace when it was picked there. *)
Definition setProjectPath (ref : option nat) (project : Project) (p : string)
  : Cmd Project :=
  λ w,
    let project' := {| name := name project; path := p |} in
    (Done project',
     {| projects := match ref with
                    | Some i => <[i := project']> (projects w)
                    | None => projects w
                    end;
        window := window w;
        events := events w |}).

(** [BaseCommand.execCmd].  A project given as third argument is an
    object: the project at an index of the workspace, or one that is
    not of the workspace; in the first case the assignment to its path
    reaches the workspace, as it does for a picked project. *)
Definition execCmd (command : string) (background : bool)
    (adonisProject : option (option nat * Project)) (pick : option nat)
  : Cmd ExecCmdReturn :=
  let* target :=
    match adonisProject with
    | Some given => ret (Some given)
    | None =>
        let* picked := pickAdonisProject pick in
        ret (match picked with
             | Some (i, project) => Some (Some i, project)
             | None => None
             end)
    end in
  match target with
  | None => reject SelectionNeeded
  | Some (ref, project) =>
      let isWindows := String.eqb (platform env) "win32" in
      let* project :=
        if isWindows && Text.startsWithSlash (path project)
        then setProjectPath ref project (Text.substring1 (path project))
        else ret project in
      let nodePath := Text.orElse (nodePath env) "node" in
      let command := Text.quoted nodePath ++ " ace " ++ command in
      if background then
        emit (Exec command (path project));;
        match exec env command (path project) with
        | inl message => reject (ExecFailure message)
        | inr r => ret {| adonisProject := project; result := Some r |}
        end
      else
        let cmdWithCd :=
          if isWindows && negb (useUnixCd env)
          then "cd /d " ++ Text.quoted (path project) ++ " && " ++ command
          else "cd " ++ Text.quoted (path project) ++ " && " ++ command in
        sendTextToAdonisTerminal cmdWithCd;;
        ret {| adonisProject := project; result := None |}
  end.

Record HandleOptions : Type := {
  command : string;
  successMessage : option string;
  errorMessage : option string;
  fileType : option string;
  openCreated : option bool;
  background : option bool;
}.

(** [BaseCommand.handleExecCmd]: [Some false] is the [false] of
    [showError], [None] is [undefined]. *)
Definition handleExecCmd (options : HandleOptions) (pick : option nat)
  : Cmd (option bool) :=
  let fileType := default "file" (fileType options) in
  let openCreated := default false (openCreated options) in
  let background := default true (background options) in
  let successMessage :=
    Text.orElse (successMessage options)
      (capitalize env fileType ++ " created successfully") in
  let errorMessage :=
    Text.orElse (errorMessage options)
      ("Failed to create " ++ Text.toLowerCase fileType) in
  tryCatch
    (let* res := execCmd (command options) background None pick in
     let* pending :=
       if openCreated then
         match result res with
         | Some r => openCreatedFile (adonisProject res) (stdout r)
         | None => reject (UndefinedRead "stdout")
         end
       else ret (ret tt) in
     (match successMessage with
      | EmptyString => ret tt
      | _ => showMessage successMessage
      end);;
     pending;;
     ret None)
    (λ err,
      match err with
      | SelectionNeeded =>
          let* shown :=
            showError
              "You must select an AdonisJS project on which to run your command."
              None in
          ret (Some shown)
      | _ => showError errorMessage (Some err);; ret None
      end).

(** [Configure.run], given what the input box returns and what the
    user picks if asked for a project. *)
Definition configureRun (answer : option string) (pick : option nat)
  : Cmd (option bool) :=
  let* packageName := getInput "Package name to configure" answer in
  match packageName with
  | EmptyString => showError "Package name is required." None;; ret None
  | _ =>
      handleExecCmd
        {| command := "configure " ++ Text.quoted packageName;
           successMessage := Some EmptyString;
           errorMessage := Some "Could not configure package.";
           fileType := None;
           openCreated := None;
           background := Some false |}
        pick
  end.

End Methods.

End Command.

(** ** Further vocabulary of the statements *)

(** Whether every character of [s] satisfies [p]. *)
Fixpoint allChars (p : ascii → bool) (s : string) : bool :=
  match s with
  | EmptyString => true
  | String c s' => p c && allChars p s'
  end.

Definition notLineTerminator (c : ascii) : bool := negb (Text.isLineTerminator c).

(** Whether [s] starts with a white space character. *)
Definition startsWithSpace (s : string) : bool :=
  match s with
  | String c _ => Text.isWhiteSpace c
  | EmptyString => false
  end.

(** Whether [s] ends with a white space character. *)
Fixpoint endsWithSpace (s : string) : bool :=
  match s with
  | EmptyString => false
  | String c EmptyString => Text.isWhiteSpace c
  | String _ s' => endsWithSpace s'
  end.

(** Whether two white space characters stand next to each other in [s]. *)
Fixpoint adjacentSpaces (s : string) : bool :=
  match s with
  | EmptyString => false
  | String c s' => (Text.isWhiteSpace c && startsWithSpace s') || adjacentSpaces s'
  end.

(** The quick pick item of a project. *)
Definition itemOf (project : Command.Project) : Command.QuickPickItem :=
  {| Command.label := Command.name project;
     Command.description := Command.path project |}.

(** The terminals of a window that bear the name of the Ace terminal. *)
Definition aceTerminals (w : Editor.Window) : list Editor.Terminal :=
  filter (λ t, Editor.name t = "AdonisJS Ace") (Editor.terminals w).

(** A terminal after one more text has been sent to it. *)
Definition received (text : string) (t : Editor.Terminal) : Editor.Terminal :=
  {| Editor.name := Editor.name t;
     Editor.shellPath := Editor.shellPath t;
     Editor.sent := Editor.sent t ++ [text] |}.

(** A position without negative component. *)
Definition nonNegative (p : Position) : Prop :=
  (0 ≤ line p ∧ 0 ≤ colStart p ∧ 0 ≤ colEnd p)%Z.

(** The range the editor builds from a position: on one line, from the
    smaller column to the larger. *)
Definition rangeOf (p : Position) : Vscode.Range :=
  {| Vscode.start := {| Vscode.line := line p;
                        Vscode.character := Z.min (colStart p) (colEnd p) |};
     Vscode.end_ := {| Vscode.line := line p;
                       Vscode.character := Z.max (colStart p) (colEnd p) |} |}.

(** A world after further calls. *)
Definition addEvents (w : Command.World) (es : list Command.Event) : Command.World :=
  {| Command.projects := Command.projects w;
     Command.window := Command.window w;
     Command.events := Command.events w ++ es |}.

Definition consoleSuffix : string := " (See output console for more details)".

(** The messages [handleExecCmd] settles on. *)
Definition successMessageOf (env : Command.Env) (options : Command.HandleOptions)
  : string :=
  Text.orElse (Command.successMessage options)
    (Command.capitalize env (default "file" (Command.fileType options))
     ++ " created successfully").

Definition errorMessageOf (options : Command.HandleOptions) : string :=
  Text.orElse (Command.errorMessage options)
    ("Failed to create "
     ++ Text.toLowerCase (default "file" (Command.fileType options))).

(** The project as [execCmd] uses it: without the leading slash of its
    path on Windows. *)
Definition usedProject (env : Command.Env) (project : Command.Project)
  : Command.Project :=
  {| Command.name := Command.name project;
     Command.path :=
       if String.eqb (Command.platform env) "win32"
          && Text.startsWithSlash (Command.path project)
       then Text.substring1 (Command.path project)
       else Command.path project |}.

(** The command line of [execCmd]. *)
Definition commandLine (env : Command.Env) (command : string) : string :=
  Text.quoted (Text.orElse (Command.nodePath env) "node") ++ " ace " ++ command.

(** The line [execCmd] types into the terminal. *)
Definition terminalLine (env : Command.Env) (project : Command.Project)
    (command : string) : string :=
  (if String.eqb (Command.platform env) "win32" && negb (Command.useUnixCd env)
   then "cd /d " else "cd ")
  ++ Text.quoted (Command.path (usedProject env project)) ++ " && "
  ++ commandLine env command.

(** The world once the project at index [i] has been replaced. *)
Definition withProject (i : nat) (project : Command.Project) (w : Command.World)
  : Command.World :=
  {| Command.projects := <[i := project]> (Command.projects w);
     Command.window := Command.window w;
     Command.events := Command.events w |}.

(** ** [DocumentLinkFactory.fromControllerLink] *)

(** [RouteLink], as far as the factory reads it. *)
Record RouteLink (Controller : Type) : Type := {
  controllerPath : option string;
  controller : option Controller;
  routePosition : Position;
}.
Arguments controllerPath {Controller} _.
Arguments controller {Controller} _.
Arguments routePosition {Controller} _.

(** [RouteControllerLink]: a document link, built by [super(range)]
    from its range alone, with the file and the controller beside it. *)
Record RouteControllerLink (Uri Controller : Type) : Type := {
  linkRange : Vscode.Range;
  linkTarget : option Uri;
  filePath : Uri;
  linkController : option Controller;
}.
Arguments linkRange {Uri Controller} _.
Arguments linkTarget {Uri Controller} _.
Arguments filePath {Uri Controller} _.
Arguments linkController {Uri Controller} _.

Section RouteFactory.
Variables (Uri Controller : Type) (fileUri : string → Uri).

(** The callback of [map] in [fromControllerLink]; [super(range)] runs
    the constructor of [DocumentLink] on the range, without target. *)
Definition toRouteControllerLink (link : RouteLink Controller)
  : Result (RouteControllerLink Uri Controller) :=
  bindR (match controllerPath link with
         | Some p => Ok (fileUri p)
         | None => Throw (TypeError "ERR_INVALID_ARG_TYPE")
         end)
    (λ templateUri,
      bindR (Vscode.newPosition (line (routePosition link))
               (colStart (routePosition link)))
        (λ start,
          bindR (Vscode.newPosition (line (routePosition link))
                   (colEnd (routePosition link)))
            (λ end_,
              bindR (Vscode.newDocumentLink (Vscode.newRange start end_)
                       (None : option Uri))
                (λ base,
                  Ok {| linkRange := Vscode.range base;
                        linkTarget := Vscode.target base;
                        filePath := templateUri;
                        linkController := controller link |})))).

Definition fromControllerLink (links : list (RouteLink Controller))
  : Result (list (RouteControllerLink Uri Controller)) :=
  mapR toRouteControllerLink (filter (λ link, controllerPath link ≠ None) links).

End RouteFactory.

(** Inputs of the concrete runs of the commands. *)
Module CommandSample.

(** A stand-in for [capitalize] of the utilities: the first letter in
    upper case. *)
Definition capitalize (s : string) : string :=
  match s with
  | EmptyString => EmptyString
  | String c s' =>
      let n := nat_of_ascii c in
      String (if (97 <=? n)%nat && (n <=? 122)%nat then ascii_of_nat (n - 32) else c) s'
  end.

Definition created : string :=
  "CREATE: app/Models/User.ts" ++ String newline EmptyString ++ "Done".

(** A system on which the generators succeed and everything else
    fails. *)
Definition exec (command cwd : string) : string + Command.ExecResult :=
  if Js.includes command "make:"
  then inr {| Command.stdout := created; Command.stderr := EmptyString |}
  else inl "Command failed".

Definition linux : Command.Env :=
  {| Command.platform := "linux";
     Command.nodePath := None;
     Command.useUnixCd := false;
     Command.capitalize := capitalize;
     Command.join := Posix.join;
     Command.exec := exec;
     Command.openTextDocument := λ _, true |}.

(** On Windows the parts of a path are joined by backslashes. *)
Definition windows : Command.Env :=
  {| Command.platform := "win32";
     Command.nodePath := Some "C:/node/node.exe";
     Command.useUnixCd := false;
     Command.capitalize := capitalize;
     Command.join := Text.joinWith (String Posix.backslash EmptyString);
     Command.exec := exec;
     Command.openTextDocument := λ _, true |}.

Definition blog : Command.Project :=
  {| Command.name := "blog"; Command.path := "/c:/work/blog" |}.

Definition shop : Command.Project :=
  {| Command.name := "shop"; Command.path := "/c:/work/shop" |}.

Definition emptyWindow : Editor.Window :=
  {| Editor.terminals := []; Editor.activeTerminal := None |}.

Definition bash : Editor.Terminal :=
  {| Editor.name := "bash"; Editor.shellPath := None; Editor.sent := ["ls"] |}.

Definition oneProject : Command.World :=
  {| Command.projects := [blog]; Command.window := emptyWindow; Command.events := [] |}.

Definition twoProjects : Command.World :=
  {| Command.projects := [blog; shop];
     Command.window := {| Editor.terminals := [bash]; Editor.activeTerminal := Some 0%nat |};
     Command.events := [] |}.

Definition makeModel : Command.HandleOptions :=
  {| Command.command := "make:model User";
     Command.successMessage := None;
     Command.errorMessage := None;
     Command.fileType := Some "model";
     Command.openCreated := Some true;
     Command.background := None |}.

Definition migrate : Command.HandleOptions :=
  {| Command.command := "migration:run";
     Command.successMessage := Some EmptyString;
     Command.errorMessage := None;
     Command.fileType := None;
     Command.openCreated := None;
     Command.background := None |}.

Definition serve : Command.HandleOptions :=
  {| Command.command := "serve --watch";
     Command.successMessage := None;
     Command.errorMessage := None;
     Command.fileType := None;
     Command.openCreated := Some true;
     Command.background := Some false |}.

Definition typeMake : Command.HandleOptions :=
  {| Command.command := "make:model User";
     Command.successMessage := Some EmptyString;
     Command.errorMessage := None;
     Command.fileType := None;
     Command.openCreated := None;
     Command.background := None |}.

End CommandSample.

(** Further inputs of the concrete runs of the linker. *)

Definition sampleLinks : list InertiaLink :=
  [ {| templatePath := Some "/proj/pages/users/Show.vue";
       position := {| line := 0; colStart := 23; colEnd := 33 |} |};
    {| templatePath := Some "/proj/pages/Home.vue";
       position := {| line := 1; colStart := 23; colEnd := 27 |} |} ].

Definition brokenCall : string := "render('a" ++ Sample.nl ++ "b')".

Definition brokenMatch : RegExpMatchArray :=
  {| m_full := "render('a" ++ Sample.nl ++ "b'";
     m_group1 := "a" ++ Sample.nl ++ "b";
     m_index := 0 |}.

Definition sampleRoutes : list (RouteLink string) :=
  [ {| controllerPath := Some "/proj/app/controllers/users_controller.ts";
       controller := Some "UsersController";
       routePosition := {| line := 3; colStart := 21; colEnd := 42 |} |};
    {| controllerPath := None;
       controller := None;
       routePosition := {| line := 4; colStart := 21; colEnd := 40 |} |} ].

Definition fileUriOf (p : string) : string := "file://" ++ p.

Definition sampleOptions : AceExecutor.ExecOptions :=
  {| AceExecutor.adonisProject := {| path := "/c:/work/blog" |};
     AceExecutor.command := "make:model User";
     AceExecutor.background := None |}.

Definition sampleForeground : AceExecutor.ExecOptions :=
  {| AceExecutor.adonisProject := {| path := "/c:/work/blog" |};
     AceExecutor.command := "serve --watch";
     AceExecutor.background := Some false |}.

Definition sampleMisc : AceExecutor.Misc :=
  {| AceExecutor.nodePath := None; AceExecutor.useUnixCd := false |}.

(** A stand-in for [execaNode], which succeeds with the script and
    its arguments as output. *)
Definition sampleExeca (script : string) (args : list string)
    (options : AceExecutor.NodeOptions) : string + string :=
  inr (script ++ " " ++ Text.joinWith " " args).

(** * Properties *)

(** ** Strings and arrays *)

Section JsFacts.

Lemma includes_indexOf hay needle :
  Js.includes hay needle = true → (0 ≤ Js.indexOf hay needle)%Z.
Proof.
  unfold Js.includes, Js.indexOf.
  destruct (String.index 0 needle hay); [lia | discriminate].
Qed.

Lemma includes_slice hay needle :
  Js.includes hay needle = true →
  Js.slice hay (Js.indexOf hay needle)
    (Js.indexOf hay needle + Z.of_nat (String.length needle)) = needle.
Proof.
  unfold Js.includes, Js.indexOf, Js.slice.
  destruct (String.index 0 needle hay) as [n|] eqn:E; [intros _ | discriminate].
  replace (Z.to_nat (Z.of_nat n + Z.of_nat (String.length needle) - Z.of_nat n))
    with (String.length needle) by lia.
  rewrite Nat2Z.id. by apply String.index_correct1 in E.
Qed.

Context {A : Type} (p : A → bool).

Lemma findIndexFrom_absent (arr : list A) i :
  (∀ x, x ∈ arr → p x = false) → Js.findIndexFrom i p arr = (-1)%Z.
Proof.
  revert i. induction arr as [|x arr IH]; intros i Hall; simpl; [done|].
  rewrite (Hall x) by left. apply IH. intros y Hy. apply Hall. by right.
Qed.

(** [findIndex] stops at the first element that satisfies [p]. *)
Lemma findIndexFrom_first (arr : list A) i k x :
  arr !! k = Some x → p x = true →
  ∃ k0 x0, (k0 ≤ k)%nat ∧ Js.findIndexFrom i p arr = (i + Z.of_nat k0)%Z ∧
    arr !! k0 = Some x0 ∧ p x0 = true ∧
    ∀ j y, (j < k0)%nat → arr !! j = Some y → p y = false.
Proof.
  revert i k. induction arr as [|a arr IH]; intros i k Hk Hp; [done|].
  simpl. destruct (p a) eqn:Ea.
  - exists 0%nat, a. split_and!; [lia | lia | done | done |]. intros; lia.
  - destruct k as [|k]; [simpl in Hk; congruence|].
    destruct (IH (i + 1)%Z k Hk Hp) as (k0 & x0 & Hle & Hf & Hx0 & Hp0 & Hbefore).
    exists (S k0), x0. split_and!; [lia | lia | done | done |].
    intros [|j] y Hj Hy; simpl in Hy; [congruence|]. eapply Hbefore; [|done]. lia.
Qed.

End JsFacts.

(** ** The position mapper *)

(** What [matchIndexToPosition] returns as soon as some line holds the
    capture. *)
Lemma matchIndexToPosition_found fileContent m k l :
  Js.split newline fileContent !! k = Some l →
  Js.includes l (m_group1 m) = true →
  ∃ k0 l0,
    (k0 ≤ k)%nat ∧
    Js.split newline fileContent !! k0 = Some l0 ∧
    Js.includes l0 (m_group1 m) = true ∧
    (∀ j lj, (j < k0)%nat → Js.split newline fileContent !! j = Some lj →
             Js.includes lj (m_group1 m) = false) ∧
    matchIndexToPosition fileContent m =
      Ok {| line := Z.of_nat k0;
            colStart := Js.indexOf l0 (m_group1 m);
            colEnd := Js.indexOf l0 (m_group1 m)
                      + Z.of_nat (String.length (m_group1 m)) |}.
Proof.
  intros Hk Hinc.
  destruct (findIndexFrom_first (λ l, Js.includes l (m_group1 m)) _ 0 k l Hk Hinc)
    as (k0 & l0 & Hle & Hf & Hl0 & Hinc0 & Hbefore).
  exists k0, l0. split_and!; try done.
  unfold matchIndexToPosition, Js.findIndex. rewrite Hf. unfold Js.get.
  replace (0 + Z.of_nat k0 <? 0)%Z with false by lia.
  replace (Z.to_nat (0 + Z.of_nat k0)) with k0 by lia.
  rewrite Hl0. by rewrite Z.add_0_l.
Qed.

Lemma matchIndexToPosition_absent fileContent m :
  (∀ l, l ∈ Js.split newline fileContent → Js.includes l (m_group1 m) = false) →
  matchIndexToPosition fileContent m =
    Throw (TypeError "Cannot read properties of undefined (reading 'indexOf')").
Proof.
  intros Hall. unfold matchIndexToPosition, Js.findIndex.
  by rewrite (findIndexFrom_absent _ _ _ Hall).
Qed.

(** A position that is returned has no negative component. *)
Lemma matchIndexToPosition_nonneg fileContent m p :
  matchIndexToPosition fileContent m = Ok p →
  (0 ≤ line p ∧ 0 ≤ colStart p ∧ colStart p ≤ colEnd p)%Z.
Proof.
  unfold matchIndexToPosition.
  set (lines := Js.split newline fileContent).
  set (pr := λ l, Js.includes l (m_group1 m)).
  destruct (decide (Exists (λ l, pr l = true) lines)) as [Hex|Hno].
  - apply Exists_exists in Hex as (l & Hl & Hp).
    apply list_elem_of_lookup in Hl as [k Hk].
    destruct (findIndexFrom_first pr lines 0 k l Hk Hp)
      as (k0 & l0 & Hle & Hf & Hl0 & Hinc0 & _).
    unfold Js.findIndex. rewrite Hf. unfold Js.get.
    replace (0 + Z.of_nat k0 <? 0)%Z with false by lia.
    replace (Z.to_nat (0 + Z.of_nat k0)) with k0 by lia.
    rewrite Hl0. intros [= <-]. simpl.
    pose proof (includes_indexOf _ _ Hinc0). lia.
  - unfold Js.findIndex. rewrite findIndexFrom_absent; [done|].
    intros x Hx. destruct (pr x) eqn:E; [|done].
    destruct Hno. apply Exists_exists. eauto.
Qed.

(** ** From an occurrence in the text to an occurrence in a line *)

Section Lines.

Lemma split_nonempty sep s : ∃ hd tl, Js.split sep s = hd :: tl.
Proof.
  destruct s as [|c s]; simpl; [by eexists _, _|].
  destruct (Ascii.eqb c sep); [by eexists _, _|].
  destruct (Js.split sep s); by eexists _, _.
Qed.

Lemma prefix_empty_r needle :
  String.prefix needle EmptyString = true → needle = EmptyString.
Proof. by destruct needle. Qed.

Lemma prefix_includes needle s :
  String.prefix needle s = true → Js.includes s needle = true.
Proof.
  unfold Js.includes. destruct s as [|c s]; intros Hp.
  - apply prefix_empty_r in Hp as ->. done.
  - simpl. simpl in Hp. by rewrite Hp.
Qed.

Lemma includes_cons c needle s :
  Js.includes s needle = true → Js.includes (String c s) needle = true.
Proof.
  unfold Js.includes. simpl.
  destruct (String.index 0 needle s); [|done].
  by destruct needle as [|a needle]; [|destruct (ascii_dec a c), (String.prefix needle s)].
Qed.

(** A prefix of the text without a line break is a prefix of its
    first line. *)
Lemma prefix_first_line needle text :
  containsChar newline needle = false →
  String.prefix needle text = true →
  ∃ hd tl, Js.split newline text = hd :: tl ∧ String.prefix needle hd = true.
Proof.
  revert needle. induction text as [|c text IH]; intros needle Hnl Hp.
  - apply prefix_empty_r in Hp as ->. by exists EmptyString, [].
  - destruct needle as [|a needle].
    + destruct (split_nonempty newline (String c text)) as (hd & tl & E).
      exists hd, tl. split; [done|]. by destruct hd.
    + simpl in Hp, Hnl. destruct (ascii_dec a c) as [->|]; [|done].
      apply orb_false_iff in Hnl as [Hc Hnl].
      destruct (IH needle Hnl Hp) as (hd & tl & E & Hhd).
      simpl. rewrite Hc, E. exists (String c hd), tl. split; [done|].
      simpl. by destruct (ascii_dec c c).
Qed.

Lemma occurrence_in_a_line needle text :
  (0 < occurrences needle text)%nat →
  containsChar newline needle = false →
  ∃ k l, Js.split newline text !! k = Some l ∧ Js.includes l needle = true.
Proof.
  intros Hocc Hnl. induction text as [|c text IH].
  - cbn [occurrences] in Hocc.
    destruct (String.prefix needle EmptyString) eqn:Hp; [|lia].
    exists 0%nat, EmptyString. split; [done|]. by apply prefix_includes.
  - cbn [occurrences] in Hocc.
    destruct (String.prefix needle (String c text)) eqn:Hp.
    + destruct (prefix_first_line _ _ Hnl Hp) as (hd & tl & E & Hhd).
      exists 0%nat, hd. rewrite E. split; [done|]. by apply prefix_includes.
    + destruct IH as (k & l & Hk & Hl); [lia|].
      simpl. destruct (Ascii.eqb c newline).
      * by exists (S k), l.
      * destruct (Js.split newline text) as [|hd tl]; [done|].
        destruct k as [|k].
        -- exists 0%nat, (String c hd). split; [done|].
           apply includes_cons. simpl in Hk. congruence.
        -- by exists (S k), l.
Qed.

End Lines.

(** ** [Promise.all] *)

Section PromiseAllFacts.
Import PromiseAll.
Context {A : Type} (outcomes : list (Result A)).

Lemma foldl_settled r schedule :
  foldl (settle outcomes) (Settled r) schedule = Settled r.
Proof. induction schedule; simpl; auto. Qed.

Lemma fill_length values schedule :
  length (fill outcomes values schedule) = length values.
Proof.
  revert values. induction schedule as [|i rest IH]; intros values; [done|].
  unfold fill in *. simpl. rewrite IH.
  destruct (outcomes !! i) as [[v|e]|]; [apply length_insert | done | done].
Qed.

Lemma fill_lookup_notin values schedule i :
  i ∉ schedule → fill outcomes values schedule !! i = values !! i.
Proof.
  revert values. induction schedule as [|j rest IH]; intros values Hi; [done|].
  apply not_elem_of_cons in Hi as [Hij Hi].
  unfold fill in *. simpl. rewrite IH by done.
  destruct (outcomes !! j) as [[v|e]|]; [|done|done].
  by rewrite list_lookup_insert_ne.
Qed.

Lemma fill_lookup_in values schedule i v :
  i ∈ schedule → (i < length values)%nat → outcomes !! i = Some (Ok v) →
  fill outcomes values schedule !! i = Some (Some v).
Proof.
  revert values. induction schedule as [|j rest IH]; intros values Hi Hlen Hv.
  - by apply elem_of_nil in Hi.
  - destruct (decide (i ∈ rest)) as [Hin|Hnotin].
    + change (fill outcomes values (j :: rest))
        with (fill outcomes (match outcomes !! j with
                             | Some (Ok v) => <[j := Some v]> values
                             | _ => values
                             end) rest).
      apply IH; [done| |done].
      destruct (outcomes !! j) as [[w|e]|]; [by rewrite length_insert|done|done].
    + apply elem_of_cons in Hi as [->|Hi]; [|done].
      change (fill outcomes values (j :: rest))
        with (fill outcomes (match outcomes !! j with
                             | Some (Ok v) => <[j := Some v]> values
                             | _ => values
                             end) rest).
      rewrite fill_lookup_notin by done. rewrite Hv.
      by apply list_lookup_insert_eq.
Qed.

Lemma firstRejection_None schedule i e :
  firstRejection outcomes schedule = None → i ∈ schedule →
  outcomes !! i ≠ Some (Throw e).
Proof.
  induction schedule as [|j rest IH]; intros Hnone Hi.
  - by apply elem_of_nil in Hi.
  - simpl in Hnone. apply elem_of_cons in Hi as [->|Hi].
    + destruct (outcomes !! j) as [[w|e']|]; congruence.
    + apply IH; [|done]. destruct (outcomes !! j) as [[w|e']|]; congruence.
Qed.

Lemma firstRejection_Some schedule e :
  firstRejection outcomes schedule = Some e →
  ∃ i, i ∈ schedule ∧ outcomes !! i = Some (Throw e).
Proof.
  induction schedule as [|j rest IH]; intros Hsome; [done|].
  simpl in Hsome. destruct (outcomes !! j) as [[w|e']|] eqn:Ej.
  - destruct (IH Hsome) as (i & Hi & Ho). exists i. split; [by right|done].
  - injection Hsome as ->. exists j. split; [by left|done].
  - destruct (IH Hsome) as (i & Hi & Ho). exists i. split; [by right|done].
Qed.

Lemma firstRejection_is_Some schedule i e :
  i ∈ schedule → outcomes !! i = Some (Throw e) →
  is_Some (firstRejection outcomes schedule).
Proof.
  induction schedule as [|j rest IH]; intros Hi Ho.
  - by apply elem_of_nil in Hi.
  - simpl. destruct (outcomes !! j) as [[w|e']|] eqn:Ej; [|by eexists|].
    + apply elem_of_cons in Hi as [->|Hi]; [congruence|by apply IH].
    + apply elem_of_cons in Hi as [->|Hi]; [congruence|by apply IH].
Qed.

(** The state of [Promise.all] after the settlements of [schedule],
    started from a collecting state that still awaits at least as
    many elements. *)
Lemma foldl_settle_collecting schedule values r :
  (1 ≤ r)%nat → (length schedule ≤ r)%nat →
  (∀ i, i ∈ schedule → (i < length outcomes)%nat) →
  foldl (settle outcomes) (Collecting values r) schedule =
    match firstRejection outcomes schedule with
    | Some e => Settled (Throw e)
    | None =>
        if decide (length schedule = r)
        then Settled (Ok (fill outcomes values schedule))
        else Collecting (fill outcomes values schedule) (r - length schedule)
    end.
Proof.
  revert values r. induction schedule as [|i rest IH]; intros values r Hr Hlen Hin.
  - simpl. destruct (decide (0%nat = r)); [lia|]. by rewrite Nat.sub_0_r.
  - assert (Hi : (i < length outcomes)%nat) by (apply Hin; left).
    apply lookup_lt_is_Some_2 in Hi as [o Ho].
    cbn [foldl firstRejection settle]. unfold fill. cbn [foldl]. rewrite Ho.
    destruct o as [v|e]; [|apply foldl_settled].
    simpl in Hlen.
    destruct r as [|[|r]]; [lia| |].
    + destruct rest; [|simpl in Hlen; lia]. simpl. done.
    + replace (S (S r) - 1)%nat with (S r) by lia.
      rewrite IH; [|lia|lia|intros j Hj; apply Hin; by right].
      destruct (firstRejection outcomes rest); [done|].
      fold (fill outcomes (<[i:=Some v]> values) rest).
      destruct (decide (length rest = S r)), (decide (length (i :: rest) = S (S r)));
        simpl in *; try lia; try done.
  Qed.

(** When every promise settles exactly once, [Promise.all] rejects
    with the rejection that comes first in the order of settlement,
    and otherwise fulfils with the values in the order of the
    promises. *)
Lemma run_complete schedule :
  schedule ≡ₚ seq 0 (length outcomes) →
  run outcomes schedule =
    match firstRejection outcomes schedule with
    | Some e => Rejected e
    | None => Fulfilled (map valueOf outcomes)
    end.
Proof.
  intros Hperm.
  assert (Hin : ∀ i, i ∈ schedule ↔ (i < length outcomes)%nat).
  { intros i. rewrite Hperm, elem_of_seq. lia. }
  assert (Hlen : length schedule = length outcomes).
  { by rewrite Hperm, length_seq. }
  unfold run, init. destruct outcomes as [|o os] eqn:Eo.
  - destruct schedule; [done|discriminate].
  - rewrite <- Eo in *. rewrite foldl_settle_collecting;
      [| rewrite Eo; simpl; lia | lia | intros i; apply Hin].
    destruct (firstRejection outcomes schedule) as [e|] eqn:Ef; [done|].
    destruct (decide (length schedule = length outcomes)); [|done].
    f_equal. apply list_eq. intros i.
    rewrite list_lookup_fmap.
    destruct (outcomes !! i) as [oi|] eqn:Ei.
    + assert (Hi : (i < length outcomes)%nat) by (eapply lookup_lt_Some; eauto).
      destruct oi as [v|e'].
      * simpl. apply fill_lookup_in; [by apply Hin|by rewrite length_replicate|done].
      * exfalso. eapply (firstRejection_None schedule i e'); [done|by apply Hin|done].
    + simpl. apply lookup_ge_None. rewrite fill_length, length_replicate.
      by apply lookup_ge_None in Ei.
Qed.

Lemma filterBoolean_values :
  (∀ o, o ∈ outcomes → ∃ v, o = Ok v) →
  map Ok (filterBoolean (map valueOf outcomes)) = outcomes.
Proof.
  unfold filterBoolean.
  induction outcomes as [|o os IH]; intros Hall; [done|].
  destruct (Hall o) as [v ->]; [left|].
  cbn [map valueOf]. rewrite filter_cons_True by done. cbn [omap id]. simpl. f_equal.
  apply IH. intros o' Ho'. apply Hall. by right.
Qed.

End PromiseAllFacts.

(** ** The link assembler *)

Section LinkerFacts.
Context `{H : Host}.
Variables (fs : FileSystem) (fileContent : string)
          (project : AdonisProject) (pagesDirectory : string).

Local Abbreviation resolve := (resolveMatch fs fileContent project pagesDirectory).
Local Abbreviation matchesArray := (matchAllInertia fileContent).

Lemma getLinks_complete schedule :
  schedule ≡ₚ seq 0 (length matchesArray) →
  getLinks fs schedule fileContent project pagesDirectory =
    match PromiseAll.firstRejection (map resolve matchesArray) schedule with
    | Some e => Rejected e
    | None =>
        Fulfilled (filterBoolean (map PromiseAll.valueOf (map resolve matchesArray)))
    end.
Proof.
  intros Hperm. unfold getLinks.
  rewrite run_complete by (by rewrite length_map).
  by destruct (PromiseAll.firstRejection _ _).
Qed.

(** Without a rejection in the order of settlement, every per-match
    promise has fulfilled. *)
Lemma no_rejection_all_fulfilled schedule :
  schedule ≡ₚ seq 0 (length matchesArray) →
  PromiseAll.firstRejection (map resolve matchesArray) schedule = None →
  ∀ o, o ∈ map resolve matchesArray → ∃ link, o = Ok link.
Proof.
  intros Hperm Hnone o Ho.
  apply list_elem_of_lookup in Ho as [i Hi].
  destruct o as [link|e]; [by eexists|]. exfalso.
  eapply (firstRejection_None _ schedule i e); [done| |done].
  rewrite Hperm, elem_of_seq. apply lookup_lt_Some in Hi.
  rewrite length_map in Hi. lia.
Qed.

Lemma getLinks_fulfilled schedule links :
  schedule ≡ₚ seq 0 (length matchesArray) →
  getLinks fs schedule fileContent project pagesDirectory = Fulfilled links →
  map Ok links = map resolve matchesArray.
Proof.
  intros Hperm. rewrite getLinks_complete by done.
  destruct (PromiseAll.firstRejection _ _) eqn:Ef; [done|].
  intros [= <-]. apply filterBoolean_values.
  by apply (no_rejection_all_fulfilled schedule).
Qed.

Lemma resolveMatch_position m link :
  resolve m = Ok link →
  matchIndexToPosition fileContent m = Ok (position link).
Proof.
  unfold resolveMatch.
  destruct (fg _ _ _) as [files|e]; [simpl|done].
  destruct (matchIndexToPosition fileContent m) as [p|e]; [simpl|done].
  destruct files; by intros [= <-].
Qed.

End LinkerFacts.

(** * The claims *)

Section AssemblerClaims.
Context `{H : Host}.
Variables (fs : FileSystem) (fileContent : string)
          (project : AdonisProject) (pagesDirectory : string).

Local Abbreviation resolve := (resolveMatch fs fileContent project pagesDirectory).
Local Abbreviation matchesArray := (matchAllInertia fileContent).

(** C1 (amended).  When the pattern produces N matches and each
    per-match lookup fulfils (its search does not fail and its capture
    lies in a line of the text), [getLinks] fulfils with exactly N
    links, the i-th link being the one of the i-th match, whatever
    the order in which the concurrent lookups complete. *)
Theorem getLinks_preserves_match_order schedule :
  schedule ≡ₚ seq 0 (length matchesArray) →
  Forall (λ m, ∃ link, resolve m = Ok link) matchesArray →
  ∃ links,
    getLinks fs schedule fileContent project pagesDirectory = Fulfilled links ∧
    length links = length matchesArray ∧
    ∀ i m, matchesArray !! i = Some m →
           ∃ link, links !! i = Some link ∧ resolve m = Ok link.
Proof.
  intros Hperm Hall.
  rewrite getLinks_complete by done.
  destruct (PromiseAll.firstRejection _ _) as [e|] eqn:Ef.
  { apply firstRejection_Some in Ef as (i & _ & Hi).
    rewrite list_lookup_fmap in Hi.
    destruct (matchesArray !! i) as [m|] eqn:Em; [|done].
    apply list_elem_of_lookup_2 in Em.
    rewrite Forall_forall in Hall. destruct (Hall m Em) as [link Hl].
    simpl in Hi. congruence. }
  eexists. split; [done|].
  assert (Hmap : map Ok (filterBoolean
              (map PromiseAll.valueOf (map resolve matchesArray)))
            = map resolve matchesArray).
  { apply filterBoolean_values. by apply (no_rejection_all_fulfilled _ _ _ _ schedule). }
  split.
  - apply (f_equal length) in Hmap. by rewrite !length_map in Hmap.
  - intros i m Hm. apply (f_equal (λ l, l !! i)) in Hmap.
    rewrite !list_lookup_fmap, Hm in Hmap. simpl in Hmap.
    destruct (filterBoolean _ !! i) as [link|]; [|done].
    exists link. split; [done|]. simpl in Hmap. congruence.
Qed.

(** C6 (amended).  A failure of the search primitive for one match
    rejects the whole batch: [getLinks] rejects with the error of one
    of the failed per-match operations and returns no links. *)
Theorem search_failure_rejects_the_batch schedule m e :
  schedule ≡ₚ seq 0 (length matchesArray) →
  m ∈ matchesArray →
  fg fs (searchPattern project pagesDirectory m) (searchOptions project) = Throw e →
  ∃ e', getLinks fs schedule fileContent project pagesDirectory = Rejected e' ∧
        ∃ m', m' ∈ matchesArray ∧ resolve m' = Throw e'.
Proof.
  intros Hperm Hm Hfg.
  assert (Hres : resolve m = Throw e) by (unfold resolveMatch; by rewrite Hfg).
  rewrite getLinks_complete by done.
  apply list_elem_of_lookup in Hm as [i Hi].
  assert (Hin : i ∈ schedule).
  { rewrite Hperm, elem_of_seq. apply lookup_lt_Some in Hi. lia. }
  assert (Hthrow : map resolve matchesArray !! i = Some (Throw e)).
  { by rewrite list_lookup_fmap, Hi, <- Hres. }
  destruct (firstRejection_is_Some _ schedule i e Hin Hthrow) as [e' He'].
  rewrite He'. exists e'. split; [done|].
  apply firstRejection_Some in He' as (j & _ & Hj).
  rewrite list_lookup_fmap in Hj.
  destruct (matchesArray !! j) as [m'|] eqn:Em'; [|done].
  exists m'. split; [by eapply list_elem_of_lookup_2|].
  simpl in Hj. congruence.
Qed.

(** C9 (idempotence).  Two passes over the same text, project, base
    directory and file system state yield the same sequence of links,
    whatever the order of completion in either pass. *)
Theorem getLinks_idempotent schedule1 schedule2 links :
  schedule1 ≡ₚ seq 0 (length matchesArray) →
  schedule2 ≡ₚ seq 0 (length matchesArray) →
  getLinks fs schedule1 fileContent project pagesDirectory = Fulfilled links →
  getLinks fs schedule2 fileContent project pagesDirectory = Fulfilled links.
Proof.
  intros Hp1 Hp2. rewrite !getLinks_complete by done.
  destruct (PromiseAll.firstRejection _ schedule1) eqn:E1; [done|].
  intros Hlinks.
  destruct (PromiseAll.firstRejection _ schedule2) as [e|] eqn:E2; [|done].
  exfalso. apply firstRejection_Some in E2 as (i & Hi & Ho).
  eapply (firstRejection_None _ schedule1 i e); [done| |done].
  by rewrite Hp1, <- Hp2.
Qed.

End AssemblerClaims.

Lemma getLinks_preserves_match_order_witness :
  ∃ links,
    getLinks Sample.disk [1; 0]%nat Sample.controller Sample.project "pages"
      = Fulfilled links ∧
    length links = length (matchAllInertia Sample.controller) ∧
    ∀ i m, matchAllInertia Sample.controller !! i = Some m →
           ∃ link, links !! i = Some link ∧
                   resolveMatch Sample.disk Sample.controller Sample.project "pages" m
                   = Ok link.
Proof.
  apply (getLinks_preserves_match_order (H := posixHost)
           Sample.disk Sample.controller Sample.project "pages" [1; 0]%nat).
  - apply perm_swap.
  - assert (E : matchAllInertia Sample.controller = [Sample.usersShow; Sample.home])
      by (vm_compute; reflexivity).
    rewrite E.
    apply List.Forall_cons; [|apply List.Forall_cons; [|apply List.Forall_nil]].
    + eexists; vm_compute; reflexivity.
    + eexists; vm_compute; reflexivity.
Defined.

(** The claim of C1 fails: the pattern finds two matches in the text,
    the search of the second fails on an unreadable directory, and
    [getLinks] returns no sequence at all, of two links or other. *)
Lemma lookup_failure_leaves_no_sequence :
  ¬ (∀ (H : Host) (fs : FileSystem) schedule fileContent project pagesDirectory,
       schedule ≡ₚ seq 0 (length (matchAllInertia fileContent)) →
       ∃ links,
         getLinks fs schedule fileContent project pagesDirectory = Fulfilled links ∧
         length links = length (matchAllInertia fileContent) ∧
         ∀ i m, matchAllInertia fileContent !! i = Some m →
                ∃ link, links !! i = Some link ∧
                        resolveMatch fs fileContent project pagesDirectory m = Ok link).
Proof.
  intros Hclaim.
  assert (E : matchAllInertia Sample.controllerWithAdmin
              = [Sample.homeFirst; Sample.adminUsers]) by (vm_compute; reflexivity).
  destruct (Hclaim posixHost Sample.lockedDisk [0; 1]%nat
              Sample.controllerWithAdmin Sample.project "pages")
    as (links & Hget & _).
  - rewrite E. reflexivity.
  - vm_compute in Hget. discriminate.
Qed.

Lemma search_failure_rejects_the_batch_witness :
  ∃ e', getLinks Sample.lockedDisk [0; 1]%nat Sample.controllerWithAdmin
          Sample.project "pages" = Rejected e' ∧
        ∃ m', m' ∈ matchAllInertia Sample.controllerWithAdmin ∧
              resolveMatch Sample.lockedDisk Sample.controllerWithAdmin
                Sample.project "pages" m' = Throw e'.
Proof.
  apply (search_failure_rejects_the_batch (H := posixHost)
           Sample.lockedDisk Sample.controllerWithAdmin Sample.project "pages"
           [0; 1]%nat Sample.adminUsers (SearchError "EACCES")).
  - vm_compute. reflexivity.
  - assert (E : matchAllInertia Sample.controllerWithAdmin
                = [Sample.homeFirst; Sample.adminUsers]) by (vm_compute; reflexivity).
    rewrite E. right. left.
  - vm_compute. reflexivity.
Defined.

(** The claim of C6 fails: with an unreadable directory under one of
    two references, the readable sibling resolves on its own, and yet
    [getLinks] returns no sequence holding its link. *)
Lemma search_failure_discards_siblings :
  ¬ (∀ (H : Host) (fs : FileSystem) schedule fileContent project pagesDirectory m link,
       schedule ≡ₚ seq 0 (length (matchAllInertia fileContent)) →
       m ∈ matchAllInertia fileContent →
       resolveMatch fs fileContent project pagesDirectory m = Ok link →
       ∃ links,
         getLinks fs schedule fileContent project pagesDirectory = Fulfilled links ∧
         link ∈ links).
Proof.
  intros Hclaim.
  assert (E : matchAllInertia Sample.controllerWithAdmin
              = [Sample.homeFirst; Sample.adminUsers]) by (vm_compute; reflexivity).
  destruct (Hclaim posixHost Sample.lockedDisk [0; 1]%nat
              Sample.controllerWithAdmin Sample.project "pages" Sample.homeFirst
              {| templatePath := Some "/proj/pages/Home.vue";
                 position := {| line := 0; colStart := 23; colEnd := 27 |} |})
    as (links & Hget & _).
  - rewrite E. reflexivity.
  - rewrite E. left.
  - vm_compute. reflexivity.
  - vm_compute in Hget. discriminate.
Qed.

Lemma getLinks_idempotent_witness :
  getLinks Sample.disk [1; 0]%nat Sample.controller Sample.project "pages"
  = Fulfilled
      [ {| templatePath := Some "/proj/pages/users/Show.vue";
           position := {| line := 0; colStart := 23; colEnd := 33 |} |};
        {| templatePath := Some "/proj/pages/Home.vue";
           position := {| line := 1; colStart := 23; colEnd := 27 |} |} ].
Proof.
  assert (E : matchAllInertia Sample.controller = [Sample.usersShow; Sample.home])
    by (vm_compute; reflexivity).
  apply (getLinks_idempotent (H := posixHost)
           Sample.disk Sample.controller Sample.project "pages"
           [0; 1]%nat [1; 0]%nat).
  - rewrite E. reflexivity.
  - rewrite E. apply perm_swap.
  - vm_compute. reflexivity.
Defined.

Section PositionClaims.
Variable fileContent : string.

Local Abbreviation lines := (Js.split newline fileContent).

(** C3 (first containing line).  The text is split at newlines and a
    match is attributed to the first line that contains its capture:
    when the same capture stands on two different lines, both matches
    receive one and the same position, on a line no later than the
    earlier of the two and before which no line contains the capture. *)
Theorem duplicate_captures_share_first_line m1 m2 i j li lj :
  m_group1 m1 = m_group1 m2 →
  (i < j)%nat →
  lines !! i = Some li → Js.includes li (m_group1 m1) = true →
  lines !! j = Some lj → Js.includes lj (m_group1 m1) = true →
  ∃ p k0 l0,
    matchIndexToPosition fileContent m1 = Ok p ∧
    matchIndexToPosition fileContent m2 = Ok p ∧
    line p = Z.of_nat k0 ∧ (k0 ≤ i)%nat ∧ (k0 < j)%nat ∧
    lines !! k0 = Some l0 ∧
    Js.includes l0 (m_group1 m1) = true ∧
    (∀ k lk, (k < k0)%nat → lines !! k = Some lk →
             Js.includes lk (m_group1 m1) = false) ∧
    colStart p = Js.indexOf l0 (m_group1 m1).
Proof.
  intros Hsame Hij Hi Hinci Hj Hincj.
  destruct (matchIndexToPosition_found fileContent m1 i li Hi Hinci)
    as (k0 & l0 & Hle & Hl0 & Hinc0 & Hbefore & Hpos).
  eexists _, k0, l0. split_and!; try done; try lia.
  rewrite <- Hpos. unfold matchIndexToPosition. by rewrite Hsame.
Qed.

(** C7 (amended).  When no line of the text contains the capture,
    the position mapper returns no position: the line index is [-1],
    the line read there is undefined, and the call throws a
    [TypeError]. *)
Theorem position_of_absent_capture_throws m :
  (∀ l, l ∈ lines → Js.includes l (m_group1 m) = false) →
  matchIndexToPosition fileContent m =
    Throw (TypeError "Cannot read properties of undefined (reading 'indexOf')").
Proof. apply matchIndexToPosition_absent. Qed.

End PositionClaims.

Lemma duplicate_captures_share_first_line_witness :
  ∃ p k0 l0,
    matchIndexToPosition ("render('home')" ++ Sample.nl ++ "render('home')") Sample.home = Ok p ∧
    matchIndexToPosition ("render('home')" ++ Sample.nl ++ "render('home')") Sample.homeFirst = Ok p ∧
    line p = Z.of_nat k0 ∧ (k0 ≤ 0)%nat ∧ (k0 < 1)%nat ∧
    Js.split newline ("render('home')" ++ Sample.nl ++ "render('home')") !! k0 = Some l0 ∧
    Js.includes l0 (m_group1 Sample.home) = true ∧
    (∀ k lk, (k < k0)%nat →
             Js.split newline ("render('home')" ++ Sample.nl ++ "render('home')") !! k = Some lk →
             Js.includes lk (m_group1 Sample.home) = false) ∧
    colStart p = Js.indexOf l0 (m_group1 Sample.home).
Proof.
  apply (duplicate_captures_share_first_line
           ("render('home')" ++ Sample.nl ++ "render('home')")
           Sample.home Sample.homeFirst 0 1 "render('home')" "render('home')");
    first [reflexivity | lia].
Defined.

Lemma position_of_absent_capture_throws_witness :
  matchIndexToPosition ("render('a" ++ Sample.nl ++ "b')")
    {| m_full := "render('a" ++ Sample.nl ++ "b'";
       m_group1 := "a" ++ Sample.nl ++ "b"; m_index := 0 |}
  = Throw (TypeError "Cannot read properties of undefined (reading 'indexOf')").
Proof.
  apply position_of_absent_capture_throws.
  apply Forall_forall. vm_compute. repeat constructor.
Defined.

(** The claim of C7 fails: a capture that runs over a line break is in
    no line, and the position mapper throws instead of returning a
    position. *)
Lemma absent_capture_yields_no_position :
  ¬ (∀ fileContent m,
       (∀ l, l ∈ Js.split newline fileContent → Js.includes l (m_group1 m) = false) →
       ∃ p, matchIndexToPosition fileContent m = Ok p).
Proof.
  intros Hclaim.
  destruct (Hclaim ("render('a" ++ Sample.nl ++ "b')")
              {| m_full := "render('a" ++ Sample.nl ++ "b'";
                 m_group1 := "a" ++ Sample.nl ++ "b"; m_index := 0 |}) as [p Hp].
  - apply Forall_forall. vm_compute. repeat constructor.
  - vm_compute in Hp. discriminate.
Qed.

(** C2 (amended).  For a capture that occurs in the text and holds no
    line break, the position mapper returns a position whose columns
    cut the raw capture [match[1]] out of the located line, and
    [colEnd - colStart] is the length of the raw capture; this is the
    capture with its quotes stripped exactly when the capture holds no
    quote to strip. *)
Theorem position_spans_raw_capture fileContent m :
  (0 < occurrences (m_group1 m) fileContent)%nat →
  containsChar newline (m_group1 m) = false →
  ∃ p l,
    matchIndexToPosition fileContent m = Ok p ∧
    Js.get (Js.split newline fileContent) (line p) = Some l ∧
    Js.slice l (colStart p) (colEnd p) = m_group1 m ∧
    (colEnd p - colStart p)%Z = Z.of_nat (String.length (m_group1 m)) ∧
    (stripQuotes (m_group1 m) = m_group1 m →
       Js.slice l (colStart p) (colEnd p) = stripQuotes (m_group1 m) ∧
       (colEnd p - colStart p)%Z
       = Z.of_nat (String.length (stripQuotes (m_group1 m)))).
Proof.
  intros Hocc Hnl.
  destruct (occurrence_in_a_line _ _ Hocc Hnl) as (k & l & Hk & Hl).
  destruct (matchIndexToPosition_found fileContent m k l Hk Hl)
    as (k0 & l0 & _ & Hl0 & Hinc0 & _ & Hpos).
  eexists _, l0. split; [exact Hpos|]. cbn [line colStart colEnd].
  assert (Hslice := includes_slice _ _ Hinc0).
  split_and!.
  - unfold Js.get. destruct (Z.ltb_spec (Z.of_nat k0) 0); [lia|].
    by rewrite Nat2Z.id.
  - done.
  - lia.
  - intros ->. split; [done|lia].
Qed.

Lemma position_spans_raw_capture_witness :
  ∃ p l,
    matchIndexToPosition Sample.controller Sample.home = Ok p ∧
    Js.get (Js.split newline Sample.controller) (line p) = Some l ∧
    Js.slice l (colStart p) (colEnd p) = m_group1 Sample.home ∧
    (colEnd p - colStart p)%Z = Z.of_nat (String.length (m_group1 Sample.home)) ∧
    (stripQuotes (m_group1 Sample.home) = m_group1 Sample.home →
       Js.slice l (colStart p) (colEnd p) = stripQuotes (m_group1 Sample.home) ∧
       (colEnd p - colStart p)%Z
       = Z.of_nat (String.length (stripQuotes (m_group1 Sample.home)))).
Proof.
  apply (position_spans_raw_capture Sample.controller Sample.home).
  - vm_compute. lia.
  - reflexivity.
Defined.

(** The claim of C2 fails: for a capture that keeps its quotes and
    occurs exactly once, the columns cut out the quoted text, which is
    neither the capture with its quotes stripped nor of its length. *)
Lemma position_does_not_span_normalized_capture :
  ¬ (∀ fileContent m p l,
       occurrences (m_group1 m) fileContent = 1%nat →
       matchIndexToPosition fileContent m = Ok p →
       Js.get (Js.split newline fileContent) (line p) = Some l →
       Js.slice l (colStart p) (colEnd p) = stripQuotes (m_group1 m) ∧
       (colEnd p - colStart p)%Z
       = Z.of_nat (String.length (stripQuotes (m_group1 m)))).
Proof.
  intros Hclaim.
  destruct (Hclaim "return inertia.render('users.show')"
              {| m_full := "render('users.show')";
                 m_group1 := "'users.show'"; m_index := 15 |}
              {| line := 0; colStart := 22; colEnd := 34 |}
              "return inertia.render('users.show')") as [Hslice _];
    [reflexivity | reflexivity | reflexivity |].
  vm_compute in Hslice. discriminate.
Qed.

(** ** Path resolution *)

Lemma fileNameOf_chars m :
  list_ascii_of_string (fileNameOf m) =
    map (λ c, if isDot c then "/"%char else c)
      (List.filter (λ c, negb (isQuote c)) (list_ascii_of_string (m_group1 m))).
Proof.
  unfold fileNameOf, stripQuotes. induction (m_group1 m) as [|c s IH]; [done|].
  cbn [Js.replaceAll List.filter list_ascii_of_string].
  destruct (isQuote c); cbn [negb String.append]; [done|].
  cbn [Js.replaceAll map list_ascii_of_string].
  destruct (isDot c); rewrite <- IH; reflexivity.
Qed.

(** [slash] leaves no backslash, except in an extended-length path,
    which it returns untouched. *)
Lemma posix_slash_forward p :
  String.prefix
    (String Posix.backslash
       (String Posix.backslash (String "?" (String Posix.backslash EmptyString)))) p
  = false →
  containsChar Posix.backslash (Posix.slash p) = false.
Proof.
  intros Hext. unfold Posix.slash. rewrite Hext. clear Hext.
  induction p as [|c p IH]; [done|].
  cbn [Js.replaceAll]. destruct (Ascii.eqb Posix.backslash c) eqn:Ec.
  - exact IH.
  - cbn [containsChar]. rewrite Ascii.eqb_sym, Ec. exact IH.
Qed.

Section ResolutionClaims.
Context `{H : Host}.
Variables (fs : FileSystem) (fileContent : string)
          (project : AdonisProject) (pagesDirectory : string).

Local Abbreviation resolve := (resolveMatch fs fileContent project pagesDirectory).

Lemma resolveMatch_searched m files p :
  fg fs (searchPattern project pagesDirectory m) (searchOptions project) = Ok files →
  matchIndexToPosition fileContent m = Ok p →
  resolve m = Ok {| templatePath := slash <$> head files; position := p |}.
Proof.
  intros Hfg Hpos. unfold resolveMatch. rewrite Hfg, Hpos. simpl.
  by destruct files.
Qed.

(** C5 (amended).  When the search for the pattern derived from a
    reference fulfils with no file, resolution yields a link with an
    absent target at the position of the match, provided the position
    mapper returns one, as it does when the capture lies in a line of
    the text; nothing is thrown on account of the missing file: the
    only throw left is the one of the position mapper. *)
Theorem not_found_gives_absent_target m :
  fg fs (searchPattern project pagesDirectory m) (searchOptions project) = Ok [] →
  (∀ p, matchIndexToPosition fileContent m = Ok p →
        resolve m = Ok {| templatePath := None; position := p |}) ∧
  (∀ k l, Js.split newline fileContent !! k = Some l →
          Js.includes l (m_group1 m) = true →
          ∃ p, resolve m = Ok {| templatePath := None; position := p |}) ∧
  (∀ e, resolve m = Throw e → matchIndexToPosition fileContent m = Throw e).
Proof.
  intros Hfg. unfold resolveMatch. rewrite Hfg. simpl. split_and!.
  - by intros p ->.
  - intros k l Hk Hl.
    destruct (matchIndexToPosition_found fileContent m k l Hk Hl)
      as (k0 & l0 & _ & _ & _ & _ & ->).
    by eexists.
  - intros e. destruct (matchIndexToPosition fileContent m); simpl;
      [discriminate | by intros [= ->]].
Qed.

End ResolutionClaims.

Lemma not_found_gives_absent_target_witness :
  resolveMatch Sample.disk Sample.controllerWithAdmin Sample.project "pages"
    Sample.adminUsers
  = Ok {| templatePath := None;
          position := {| line := 1; colStart := 23; colEnd := 34 |} |}.
Proof.
  assert (Hfg : fg Sample.disk
                  (searchPattern Sample.project "pages" Sample.adminUsers)
                  (searchOptions Sample.project) = Ok [])
    by (vm_compute; reflexivity).
  destruct (not_found_gives_absent_target (H := posixHost)
              Sample.disk Sample.controllerWithAdmin Sample.project "pages"
              Sample.adminUsers Hfg) as (Hok & _ & _).
  apply Hok. vm_compute. reflexivity.
Defined.

(** The claim of C5 fails: the capture of the one match of the text
    runs over a line break, the search for its pattern finds no file,
    and resolution throws instead of returning a link with an absent
    target. *)
Lemma empty_search_may_still_throw :
  ¬ (∀ (H : Host) (fs : FileSystem) fileContent project pagesDirectory m,
       m ∈ matchAllInertia fileContent →
       fg fs (searchPattern project pagesDirectory m) (searchOptions project) = Ok [] →
       ∃ p, resolveMatch fs fileContent project pagesDirectory m
            = Ok {| templatePath := None; position := p |}).
Proof.
  intros Hclaim.
  assert (E : matchAllInertia brokenCall = [brokenMatch]) by (vm_compute; reflexivity).
  destruct (Hclaim posixHost Sample.disk brokenCall Sample.project "pages" brokenMatch)
    as [p Hp].
  - rewrite E. left.
  - vm_compute. reflexivity.
  - vm_compute in Hp. discriminate.
Qed.

(** C4 (amended).  For a view reference, resolution removes every
    quote character of the capture, turns every dot into a forward
    slash, joins project root, base directory and the converted name
    with the fixed extension [.vue], searches that pattern without
    regard to case, files only, from the project root, and returns the
    first entry of the search with forward slashes, or an absent target
    when there is none; so [users.show] resolves to a file stored as
    [pages/users/Show.vue]. *)
Theorem view_reference_resolution :
  (∀ (H : Host) (fs : FileSystem) fileContent project pagesDirectory m,
     list_ascii_of_string (fileNameOf m) =
       map (λ c, if isDot c then "/"%char else c)
         (List.filter (λ c, negb (isQuote c)) (list_ascii_of_string (m_group1 m))) ∧
     searchPattern project pagesDirectory m =
       slash (join [path project; pagesDirectory; fileNameOf m ++ ".vue"]) ∧
     searchOptions project =
       {| onlyFiles := true; caseSensitiveMatch := false; cwd := slash (path project) |} ∧
     ∀ files p,
       fg fs (searchPattern project pagesDirectory m) (searchOptions project) = Ok files →
       matchIndexToPosition fileContent m = Ok p →
       resolveMatch fs fileContent project pagesDirectory m =
         Ok {| templatePath := slash <$> head files; position := p |}) ∧
  searchPattern Sample.project "pages" Sample.usersShow = "/proj/pages/users/show.vue" ∧
  resolveMatch Sample.disk Sample.controller Sample.project "pages" Sample.usersShow =
    Ok {| templatePath := Some "/proj/pages/users/Show.vue";
          position := {| line := 0; colStart := 23; colEnd := 33 |} |}.
Proof.
  split; [|split; vm_compute; reflexivity].
  intros H fs fileContent project pagesDirectory m. split_and!.
  - apply fileNameOf_chars.
  - reflexivity.
  - reflexivity.
  - apply resolveMatch_searched.
Qed.

Lemma view_reference_resolution_witness :
  resolveMatch Sample.disk Sample.controller Sample.project "pages" Sample.home =
    Ok {| templatePath := slash <$> head ["/proj/pages/Home.vue"];
          position := {| line := 1; colStart := 23; colEnd := 27 |} |}.
Proof.
  destruct view_reference_resolution as [Hgen _].
  destruct (Hgen posixHost Sample.disk Sample.controller Sample.project "pages"
              Sample.home) as (_ & _ & _ & Hres).
  apply (Hres ["/proj/pages/Home.vue"]); vm_compute; reflexivity.
Defined.

(** The claim of C4 fails: the extension is not taken from the
    project; whichever extension a project is configured with, the
    pattern searched ends in [.vue]. *)
Lemma template_extension_is_fixed :
  ¬ (∀ (H : Host) project pagesDirectory extension m,
       searchPattern project pagesDirectory m =
         searchPatternWithExtension (path project) pagesDirectory extension
           (m_group1 m)).
Proof.
  intros Hclaim.
  specialize (Hclaim posixHost Sample.project "pages" "edge" Sample.usersShow).
  vm_compute in Hclaim. discriminate.
Qed.

(** C10 (the path returned is the one enumerated).  When the search
    fulfils with at least one entry, [templatePath] is the first entry
    as the search enumerated it, passed through [slash] (which leaves
    no backslash in it), and not the pattern built from the reference:
    the two may differ in case. *)
Theorem templatePath_is_the_enumerated_entry :
  (∀ (H : Host) (fs : FileSystem) fileContent project pagesDirectory m file0 others p,
     fg fs (searchPattern project pagesDirectory m) (searchOptions project)
       = Ok (file0 :: others) →
     matchIndexToPosition fileContent m = Ok p →
     resolveMatch fs fileContent project pagesDirectory m =
       Ok {| templatePath := Some (slash file0); position := p |}) ∧
  (∀ file0,
     String.prefix
       (String Posix.backslash
          (String Posix.backslash (String "?" (String Posix.backslash EmptyString))))
       file0 = false →
     containsChar Posix.backslash (Posix.slash file0) = false) ∧
  ∃ link t,
    resolveMatch Sample.disk Sample.controller Sample.project "pages" Sample.usersShow
      = Ok link ∧
    templatePath link = Some t ∧
    t ≠ searchPattern Sample.project "pages" Sample.usersShow ∧
    Posix.lower t = Posix.lower (searchPattern Sample.project "pages" Sample.usersShow).
Proof.
  split_and!.
  - intros H fs fileContent project pagesDirectory m file0 others p Hfg Hpos.
    by rewrite (resolveMatch_searched _ _ _ _ _ _ _ Hfg Hpos).
  - apply posix_slash_forward.
  - eexists _, _. split_and!; [vm_compute; reflexivity | reflexivity | | ].
    + vm_compute. discriminate.
    + vm_compute. reflexivity.
Qed.

Lemma templatePath_is_the_enumerated_entry_witness :
  resolveMatch Sample.disk Sample.controller Sample.project "pages" Sample.usersShow =
    Ok {| templatePath := Some (slash "/proj/pages/users/Show.vue");
          position := {| line := 0; colStart := 23; colEnd := 33 |} |}.
Proof.
  destruct templatePath_is_the_enumerated_entry as [Hgen _].
  assert (Hfg : fg Sample.disk
                  (searchPattern Sample.project "pages" Sample.usersShow)
                  (searchOptions Sample.project)
                = Ok ["/proj/pages/users/Show.vue"])
    by (vm_compute; reflexivity).
  assert (Hpos : matchIndexToPosition Sample.controller Sample.usersShow
                 = Ok {| line := 0; colStart := 23; colEnd := 33 |})
    by (vm_compute; reflexivity).
  exact (Hgen posixHost Sample.disk Sample.controller Sample.project "pages"
           Sample.usersShow _ _ _ Hfg Hpos).
Defined.

(** ** The caller's filter *)

Section MapRFacts.
Context {A B : Type} (f : A → Result B).

Lemma mapR_Ok l ys : mapR f l = Ok ys ↔ Forall2 (λ x y, f x = Ok y) l ys.
Proof.
  revert ys. induction l as [|x l IH]; intros ys; cbn [mapR].
  - split; [intros [= <-]; constructor|by intros ->%Forall2_nil_inv_l].
  - destruct (f x) as [y|e] eqn:Ex; cbn.
    + destruct (mapR f l) as [ys'|e] eqn:El; cbn.
      * split.
        -- intros [= <-]. constructor; [done|by apply IH].
        -- intros (y' & ys'' & Hy & Hys & ->)%Forall2_cons_inv_l.
           apply IH in Hys. congruence.
      * split; [done|].
        intros (y' & ys'' & Hy & Hys & ->)%Forall2_cons_inv_l.
        apply IH in Hys. congruence.
    + split; [done|].
      intros (y' & ys'' & Hy & Hys & ->)%Forall2_cons_inv_l. congruence.
Qed.

Lemma mapR_returns l :
  (∃ ys, mapR f l = Ok ys) ↔ Forall (λ x, ∃ y, f x = Ok y) l.
Proof.
  induction l as [|x l IH]; cbn [mapR].
  - split; [constructor|by exists []].
  - split.
    + intros [ys Hys]. destruct (f x) as [y|e] eqn:Ex; [cbn in Hys|done].
      constructor; [by exists y|]. apply IH.
      destruct (mapR f l) as [ys'|e]; [by eexists|done].
    + intros [[y Hy] [ys Hys]%IH]%Forall_cons. rewrite Hy, Hys. cbn. by eexists.
Qed.

Lemma mapR_app l1 l2 :
  mapR f (l1 ++ l2)%list =
    bindR (mapR f l1) (λ ys1, bindR (mapR f l2) (λ ys2, Ok (ys1 ++ ys2)%list)).
Proof.
  induction l1 as [|x l1 IH]; cbn [mapR app].
  - cbn. by destruct (mapR f l2).
  - destruct (f x) as [y|e]; cbn; [|done]. rewrite IH.
    destruct (mapR f l1) as [ys1|e]; cbn; [|done].
    by destruct (mapR f l2).
Qed.

End MapRFacts.

Lemma newPosition_Ok l c p :
  Vscode.newPosition l c = Ok p ↔
  (0 ≤ l)%Z ∧ (0 ≤ c)%Z ∧ p = {| Vscode.line := l; Vscode.character := c |}.
Proof.
  unfold Vscode.newPosition.
  destruct (Z.ltb_spec l 0); [split; [done|lia]|].
  destruct (Z.ltb_spec c 0); [split; [done|lia]|].
  split; [intros [= <-]; done|by intros (_ & _ & ->)].
Qed.

Lemma newRange_same_line l c1 c2 :
  Vscode.newRange {| Vscode.line := l; Vscode.character := c1 |}
    {| Vscode.line := l; Vscode.character := c2 |}
  = {| Vscode.start := {| Vscode.line := l; Vscode.character := Z.min c1 c2 |};
       Vscode.end_ := {| Vscode.line := l; Vscode.character := Z.max c1 c2 |} |}.
Proof.
  unfold Vscode.newRange, Vscode.isBefore. cbn.
  rewrite Z.ltb_irrefl, Z.eqb_refl. cbn.
  destruct (Z.ltb_spec c1 c2).
  - by rewrite Z.min_l, Z.max_r by lia.
  - by rewrite Z.min_r, Z.max_l by lia.
Qed.

Lemma isEmpty_rangeOf p :
  Vscode.isEmpty (rangeOf p) = (colStart p =? colEnd p)%Z.
Proof.
  unfold Vscode.isEmpty, rangeOf. cbn. rewrite Z.eqb_refl. cbn.
  destruct (Z.eqb_spec (colStart p) (colEnd p)) as [->|Hne].
  - rewrite Z.min_id, Z.max_id. apply Z.eqb_refl.
  - apply Z.eqb_neq. lia.
Qed.

Lemma newDocumentLink_rangeOf {Uri : Type} p (t : Uri) doc :
  Vscode.newDocumentLink (rangeOf p) t = Ok doc ↔
  colStart p ≠ colEnd p ∧ doc = {| Vscode.range := rangeOf p; Vscode.target := t |}.
Proof.
  unfold Vscode.newDocumentLink. rewrite isEmpty_rangeOf.
  destruct (Z.eqb_spec (colStart p) (colEnd p)) as [Heq|Hne].
  - split; [done|]. by intros [Hne _].
  - split; [by intros [= <-]|by intros [_ ->]].
Qed.

Section FactoryFacts.
Context {Uri : Type} (fileUri : string → Uri).

Lemma toDocumentLink_Ok link doc :
  toDocumentLink Uri fileUri link = Ok doc ↔
  ∃ p, templatePath link = Some p ∧ nonNegative (position link) ∧
       colStart (position link) ≠ colEnd (position link) ∧
       doc = {| Vscode.range := rangeOf (position link);
                Vscode.target := fileUri p |}.
Proof.
  unfold toDocumentLink, nonNegative.
  destruct (templatePath link) as [p|]; cbn; [|split; [done|by intros (p & ? & _)]].
  destruct (Vscode.newPosition (line (position link)) (colStart (position link)))
    as [s|e] eqn:Es; cbn.
  - apply newPosition_Ok in Es as (Hl & Hs & ->).
    destruct (Vscode.newPosition (line (position link)) (colEnd (position link)))
      as [s'|e] eqn:Ee; cbn.
    + apply newPosition_Ok in Ee as (_ & He & ->). rewrite newRange_same_line.
      fold (rangeOf (position link)). rewrite newDocumentLink_rangeOf.
      split; [intros [Hne ->]; by exists p|].
      by intros (p' & [= <-] & _ & Hne & ->).
    + split; [done|]. intros (p' & _ & (_ & _ & He) & _).
      assert (Hok : ∃ q, Vscode.newPosition (line (position link))
                           (colEnd (position link)) = Ok q)
        by (eexists; by apply newPosition_Ok).
      destruct Hok as [q Hq]. congruence.
  - split; [done|]. intros (p' & _ & (Hl & Hs & _) & _).
    assert (Hok : ∃ q, Vscode.newPosition (line (position link))
                         (colStart (position link)) = Ok q)
      by (eexists; by apply newPosition_Ok).
    destruct Hok as [q Hq]. congruence.
Qed.

Lemma wellPlaced_nonNegative link : wellPlaced link → nonNegative (position link).
Proof. unfold wellPlaced, nonNegative. lia. Qed.

Lemma documentLinkOf_rangeOf link p :
  wellPlaced link →
  {| Vscode.range := rangeOf (position link); Vscode.target := fileUri p |}
  = documentLinkOf fileUri link p.
Proof.
  intros (_ & _ & Hle). unfold documentLinkOf, rangeOf.
  by rewrite Z.min_l, Z.max_r by lia.
Qed.

(** On links placed as the position mapper places them, the only
    refusal left to [fromViewLink] is that of an empty range. *)
Lemma fromViewLink_returns links :
  Forall wellPlaced links →
  (∃ docs, fromViewLink Uri fileUri links = Ok docs) ↔
  Forall (λ link, colStart (position link) ≠ colEnd (position link))
    (filter (λ link, templatePath link ≠ None) links).
Proof.
  intros Hplaced. unfold fromViewLink, hasTemplate. rewrite mapR_returns.
  assert (Hsub : Forall wellPlaced (filter (λ link, templatePath link ≠ None) links)).
  { apply Forall_forall. intros link [_ Hin]%list_elem_of_filter.
    by apply (proj1 (Forall_forall _ _) Hplaced). }
  split; intros Hall; apply Forall_forall; intros link Hin.
  - apply (proj1 (Forall_forall _ _) Hall) in Hin as [doc Hdoc].
    by apply toDocumentLink_Ok in Hdoc as (p & _ & _ & Hne & _).
  - pose proof (proj1 (Forall_forall _ _) Hall _ Hin) as Hne.
    pose proof (proj1 (Forall_forall _ _) Hsub _ Hin) as Hwp.
    apply list_elem_of_filter in Hin as [Hp _].
    destruct (templatePath link) as [p|] eqn:Ep; [|done].
    eexists. apply toDocumentLink_Ok. exists p.
    split_and!; [done|by apply wellPlaced_nonNegative|done|done].
Qed.

Lemma fromViewLink_documentLinks links docs :
  Forall wellPlaced links →
  fromViewLink Uri fileUri links = Ok docs →
  Forall2 (λ link doc, ∃ p, templatePath link = Some p ∧
                            doc = documentLinkOf fileUri link p)
    (filter (λ link, templatePath link ≠ None) links) docs.
Proof.
  unfold fromViewLink, hasTemplate. intros Hplaced Hdocs. apply mapR_Ok in Hdocs.
  revert docs Hdocs.
  induction Hplaced as [|link links Hlink _ IH]; intros docs Hdocs.
  - apply Forall2_nil_inv_l in Hdocs as ->. constructor.
  - destruct (templatePath link) as [p|] eqn:Hp.
    + rewrite filter_cons_True in Hdocs |- * by (rewrite Hp; done).
      apply Forall2_cons_inv_l in Hdocs as (doc & docs' & Hdoc & Hrest & ->).
      apply toDocumentLink_Ok in Hdoc as (p' & Hp' & _ & _ & ->).
      constructor; [|by apply IH].
      exists p'. split; [congruence|]. by apply documentLinkOf_rangeOf.
    + rewrite filter_cons_False in Hdocs |- * by (rewrite Hp; intros Hne; by apply Hne).
      by apply IH.
Qed.

End FactoryFacts.

Section FilteringClaim.
Context `{H : Host} {Uri : Type} (fileUri : string → Uri).
Variables (fs : FileSystem) (fileContent : string)
          (project : AdonisProject) (pagesDirectory : string).

Local Abbreviation resolve := (resolveMatch fs fileContent project pagesDirectory).
Local Abbreviation matchesArray := (matchAllInertia fileContent).

(** C8 (no filtering in the assembler).  The sequence [getLinks]
    returns holds one link per match, at the index of the match, a
    match without a file being present with an absent target; the
    links are filtered by the caller only: the document links
    [fromViewLink] returns are those of exactly the links whose
    [templatePath] is not null, in order.  On the links of [getLinks]
    the call returns unless a link it keeps has an empty range (an
    empty capture), which the constructor of the document link
    refuses. *)
Theorem unresolved_links_reach_the_caller schedule links :
  schedule ≡ₚ seq 0 (length matchesArray) →
  getLinks fs schedule fileContent project pagesDirectory = Fulfilled links →
  length links = length matchesArray ∧
  (∀ i m, matchesArray !! i = Some m →
     ∃ link, links !! i = Some link ∧ resolve m = Ok link ∧
       (fg fs (searchPattern project pagesDirectory m) (searchOptions project) = Ok [] →
        templatePath link = None)) ∧
  (∀ docs,
     fromViewLink Uri fileUri links = Ok docs →
     Forall2 (λ link doc, ∃ p, templatePath link = Some p ∧
                               doc = documentLinkOf fileUri link p)
       (filter (λ link, templatePath link ≠ None) links) docs) ∧
  ((∃ docs, fromViewLink Uri fileUri links = Ok docs) ↔
   Forall (λ link, colStart (position link) ≠ colEnd (position link))
     (filter (λ link, templatePath link ≠ None) links)).
Proof.
  intros Hperm Hget.
  pose proof (getLinks_fulfilled _ _ _ _ schedule links Hperm Hget) as Hmap.
  assert (Hplaced : Forall wellPlaced links).
  { apply Forall_forall. intros link Hlink.
    apply list_elem_of_lookup in Hlink as [i Hi].
    pose proof (f_equal (λ l, l !! i) Hmap) as Hi'. cbn beta in Hi'.
    rewrite !list_lookup_fmap, Hi in Hi'. simpl in Hi'.
    destruct (matchesArray !! i) as [m|]; [|done].
    simpl in Hi'. injection Hi' as Hres. symmetry in Hres.
    apply resolveMatch_position in Hres.
    by apply matchIndexToPosition_nonneg in Hres. }
  split_and!.
  - apply (f_equal length) in Hmap. by rewrite !length_map in Hmap.
  - intros i m Hm. apply (f_equal (λ l, l !! i)) in Hmap.
    rewrite !list_lookup_fmap, Hm in Hmap. simpl in Hmap.
    destruct (links !! i) as [link|]; [|done].
    simpl in Hmap. injection Hmap as Hlink.
    exists link. split_and!; [done|done|].
    intros Hfg. revert Hlink. unfold resolveMatch. rewrite Hfg. simpl.
    destruct (matchIndexToPosition fileContent m); simpl; [|done].
    by intros [= ->].
  - intros docs. by apply fromViewLink_documentLinks.
  - by apply fromViewLink_returns.
Qed.

End FilteringClaim.

Lemma unresolved_links_reach_the_caller_witness :
  ∃ docs,
    fromViewLink string (String.append "file://")
      [ {| templatePath := Some "/proj/pages/Home.vue";
           position := {| line := 0; colStart := 23; colEnd := 27 |} |};
        {| templatePath := None;
           position := {| line := 1; colStart := 23; colEnd := 34 |} |} ]
    = Ok docs ∧ length docs = 1%nat.
Proof.
  assert (E : matchAllInertia Sample.controllerWithAdmin
              = [Sample.homeFirst; Sample.adminUsers]) by (vm_compute; reflexivity).
  assert (Hperm : [1; 0]%nat ≡ₚ seq 0 (length (matchAllInertia Sample.controllerWithAdmin))).
  { rewrite E. apply perm_swap. }
  assert (Hget : getLinks Sample.disk [1; 0]%nat Sample.controllerWithAdmin
                   Sample.project "pages"
                 = Fulfilled
                     [ {| templatePath := Some "/proj/pages/Home.vue";
                          position := {| line := 0; colStart := 23; colEnd := 27 |} |};
                       {| templatePath := None;
                          position := {| line := 1; colStart := 23; colEnd := 34 |} |} ])
    by (vm_compute; reflexivity).
  destruct (unresolved_links_reach_the_caller (H := posixHost)
              (String.append "file://") Sample.disk Sample.controllerWithAdmin
              Sample.project "pages" [1; 0]%nat _ Hperm Hget)
    as (_ & _ & Hrel & Hiff).
  assert (Hne : Forall (λ link, colStart (position link) ≠ colEnd (position link))
                  (filter (λ link : InertiaLink, templatePath link ≠ None)
                     [ {| templatePath := Some "/proj/pages/Home.vue";
                          position := {| line := 0; colStart := 23; colEnd := 27 |} |};
                       {| templatePath := None;
                          position := {| line := 1; colStart := 23; colEnd := 34 |} |} ]))
    by (repeat constructor; cbn; lia).
  apply Hiff in Hne as [docs Hdocs].
  exists docs. split; [exact Hdocs|].
  apply Hrel in Hdocs. apply Forall2_length in Hdocs. rewrite <- Hdocs. reflexivity.
Defined.

(** * Further properties *)

(** ** Strings: occurrences as decompositions *)

Section StringFacts.

Lemma append_cons c (a b : string) : String c a ++ b = String c (a ++ b).
Proof. reflexivity. Qed.

Lemma append_nil_l (s : string) : EmptyString ++ s = s.
Proof. reflexivity. Qed.

Lemma append_nil_r (s : string) : s ++ EmptyString = s.
Proof. induction s as [|c s IH]; [done|]. by rewrite append_cons, IH. Qed.

Lemma append_assoc (a b c : string) : (a ++ b) ++ c = a ++ (b ++ c).
Proof. induction a as [|x a IH]; [done|]. by rewrite !append_cons, IH. Qed.

Lemma length_append (a b : string) :
  String.length (a ++ b) = (String.length a + String.length b)%nat.
Proof. induction a as [|x a IH]; [done|]. rewrite append_cons. cbn. by rewrite IH. Qed.

Lemma prefix_split p s :
  String.prefix p s = true ↔ ∃ r, s = p ++ r.
Proof.
  revert s. induction p as [|a p IH]; intros s.
  - split; [intros _; by exists s|by destruct s].
  - destruct s as [|b s]; cbn [String.prefix].
    + split; [done|intros [r Hr]; discriminate].
    + destruct (ascii_dec a b) as [->|Hne].
      * rewrite IH. split; intros [r Hr]; exists r.
        -- by rewrite Hr.
        -- rewrite append_cons in Hr. congruence.
      * split; [done|]. intros [r Hr]. rewrite append_cons in Hr. congruence.
Qed.

(** [indexOf] points at an occurrence. *)
Lemma index_split needle hay n :
  String.index 0 needle hay = Some n →
  ∃ pre post, hay = pre ++ needle ++ post ∧ String.length pre = n.
Proof.
  revert n. induction hay as [|c hay IH]; intros n.
  - cbn. destruct needle; [|done]. intros [= <-]. by exists EmptyString, EmptyString.
  - cbn [String.index].
    destruct (String.prefix needle (String c hay)) eqn:Hp.
    + intros [= <-]. apply prefix_split in Hp as [r Hr].
      exists EmptyString, r. by rewrite Hr.
    + destruct (String.index 0 needle hay) as [k|]; [|done].
      intros [= <-]. destruct (IH k eq_refl) as (pre & post & -> & Hlen).
      exists (String c pre), post. split; [done|]. cbn. by rewrite Hlen.
Qed.

Lemma containsChar_append c a b :
  containsChar c (a ++ b) = containsChar c a || containsChar c b.
Proof.
  induction a as [|x a IH]; [done|]. rewrite append_cons. cbn.
  rewrite IH. by rewrite orb_assoc.
Qed.

(** A character of the needle is a character of every string that
    includes it. *)
Lemma includes_containsChar hay needle c :
  Js.includes hay needle = true → containsChar c needle = true →
  containsChar c hay = true.
Proof.
  unfold Js.includes. destruct (String.index 0 needle hay) as [n|] eqn:E; [|done].
  intros _ Hc. apply index_split in E as (pre & post & -> & _).
  rewrite !containsChar_append, Hc. by rewrite orb_true_r.
Qed.

(** No line of [split] holds the separator. *)
Lemma split_lines_without_separator sep s l :
  l ∈ Js.split sep s → containsChar sep l = false.
Proof.
  revert l. induction s as [|c s IH]; intros l; cbn.
  - intros ->%list_elem_of_singleton. done.
  - destruct (Ascii.eqb c sep) eqn:Ec.
    + intros [->|Hl]%elem_of_cons; [done|by apply IH].
    + destruct (Js.split sep s) as [|hd tl] eqn:Es.
      * intros ->%list_elem_of_singleton. cbn. by rewrite Ec.
      * intros [->|Hl]%elem_of_cons.
        -- cbn. rewrite Ec. apply IH. by left.
        -- apply IH. by right.
Qed.

End StringFacts.

(** ** The linker: edges and bounds *)

Lemma matchIndexToPosition_bounds fileContent m p :
  matchIndexToPosition fileContent m = Ok p →
  ∃ l,
    Js.get (Js.split newline fileContent) (line p) = Some l ∧
    (0 ≤ line p < Z.of_nat (length (Js.split newline fileContent)))%Z ∧
    (0 ≤ colStart p)%Z ∧
    colEnd p = (colStart p + Z.of_nat (String.length (m_group1 m)))%Z ∧
    (colEnd p ≤ Z.of_nat (String.length l))%Z.
Proof.
  unfold matchIndexToPosition.
  set (lines := Js.split newline fileContent).
  set (pr := λ l, Js.includes l (m_group1 m)).
  destruct (decide (Exists (λ l, pr l = true) lines)) as [Hex|Hno].
  - apply Exists_exists in Hex as (l & Hl & Hp).
    apply list_elem_of_lookup in Hl as [k Hk].
    destruct (findIndexFrom_first pr lines 0 k l Hk Hp)
      as (k0 & l0 & Hle & Hf & Hl0 & Hinc0 & _).
    unfold Js.findIndex. rewrite Hf. unfold Js.get.
    destruct (Z.ltb_spec (0 + Z.of_nat k0) 0); [lia|].
    replace (Z.to_nat (0 + Z.of_nat k0)) with k0 by lia.
    rewrite Hl0. intros [= <-]. cbn [line colStart colEnd].
    exists l0. apply lookup_lt_Some in Hl0 as Hlt.
    unfold pr, Js.includes in Hinc0. unfold Js.indexOf.
    destruct (String.index 0 (m_group1 m) l0) as [n|] eqn:E; [|done].
    apply index_split in E as (pre & post & -> & Hpre).
    rewrite !length_append.
    destruct (Z.ltb_spec (0 + Z.of_nat k0) 0); [lia|].
    replace (Z.to_nat (0 + Z.of_nat k0)) with k0 by lia.
    split_and!; [done|lia|lia|lia|done|lia].
  - unfold Js.findIndex. rewrite findIndexFrom_absent; [done|].
    intros x Hx. destruct (pr x) eqn:E; [|done].
    destruct Hno. apply Exists_exists. eauto.
Qed.

Lemma firstRejection_app_fulfilled {A} (outcomes : list (Result A)) pre rest :
  (∀ j, j ∈ pre → ∃ v, outcomes !! j = Some (Ok v)) →
  PromiseAll.firstRejection outcomes (pre ++ rest)%list
  = PromiseAll.firstRejection outcomes rest.
Proof.
  induction pre as [|j pre IH]; intros Hpre; [done|].
  cbn. destruct (Hpre j) as [v ->]; [left|].
  apply IH. intros k Hk. apply Hpre. by right.
Qed.

Section LinkerEdges.
Context `{H : Host}.
Variables (fs : FileSystem) (fileContent : string)
          (project : AdonisProject) (pagesDirectory : string).

Local Abbreviation resolve := (resolveMatch fs fileContent project pagesDirectory).
Local Abbreviation matchesArray := (matchAllInertia fileContent).

(** X1.  A text without any match gives the empty sequence of links,
    whatever events are scheduled. *)
Theorem getLinks_without_match schedule :
  matchesArray = [] →
  getLinks fs schedule fileContent project pagesDirectory = Fulfilled [].
Proof.
  intros Hnone. unfold getLinks, PromiseAll.run. rewrite Hnone. cbn [map PromiseAll.init].
  by rewrite foldl_settled.
Qed.

(** X2.  Every link that [getLinks] returns lies inside a line of the
    text: its line index is that of an existing line, its columns are
    not negative, span the length of the capture of one of the matches
    and end no later than the line does. *)
Theorem link_positions_lie_in_their_line schedule links link :
  schedule ≡ₚ seq 0 (length matchesArray) →
  getLinks fs schedule fileContent project pagesDirectory = Fulfilled links →
  link ∈ links →
  ∃ m l,
    m ∈ matchesArray ∧
    Js.get (Js.split newline fileContent) (line (position link)) = Some l ∧
    (0 ≤ line (position link) < Z.of_nat (length (Js.split newline fileContent)))%Z ∧
    (0 ≤ colStart (position link))%Z ∧
    colEnd (position link)
    = (colStart (position link) + Z.of_nat (String.length (m_group1 m)))%Z ∧
    (colEnd (position link) ≤ Z.of_nat (String.length l))%Z.
Proof.
  intros Hperm Hget Hlink.
  pose proof (getLinks_fulfilled _ _ _ _ schedule links Hperm Hget) as Hmap.
  apply list_elem_of_lookup in Hlink as [i Hi].
  apply (f_equal (λ l, l !! i)) in Hmap.
  rewrite !list_lookup_fmap, Hi in Hmap. cbn in Hmap.
  destruct (matchesArray !! i) as [m|] eqn:Em; [|done].
  cbn in Hmap. injection Hmap as Hres. symmetry in Hres.
  apply resolveMatch_position in Hres.
  destruct (matchIndexToPosition_bounds _ _ _ Hres) as (l & Hb).
  exists m, l. split; [by eapply list_elem_of_lookup_2|exact Hb].
Qed.

(** X3.  In a returned sequence the link of a match has an absent
    target exactly when the search for that match fulfilled with no
    entry; otherwise its target is the first entry. *)
Theorem absent_target_iff_empty_search schedule links i m link :
  schedule ≡ₚ seq 0 (length matchesArray) →
  getLinks fs schedule fileContent project pagesDirectory = Fulfilled links →
  matchesArray !! i = Some m →
  links !! i = Some link →
  ∃ files,
    fg fs (searchPattern project pagesDirectory m) (searchOptions project) = Ok files ∧
    templatePath link = slash <$> head files ∧
    (templatePath link = None ↔ files = []).
Proof.
  intros Hperm Hget Hm Hlink.
  pose proof (getLinks_fulfilled _ _ _ _ schedule links Hperm Hget) as Hmap.
  apply (f_equal (λ l, l !! i)) in Hmap.
  rewrite !list_lookup_fmap, Hm, Hlink in Hmap. cbn in Hmap.
  injection Hmap as Hres. symmetry in Hres. revert Hres. unfold resolveMatch.
  destruct (fg _ _ _) as [files|e]; [cbn|done].
  destruct (matchIndexToPosition fileContent m) as [p|e]; [cbn|done].
  intros Hres. exists files. split; [done|].
  destruct files as [|file0 others]; injection Hres as <-; cbn; split_and!; done.
Qed.

(** X5.  When several lookups fail, [getLinks] rejects with the error
    of the failed lookup that completes first: the lookups completed
    before it having fulfilled, its error is the one reported. *)
Theorem getLinks_rejects_with_first_completed_failure
    schedule (pre : list nat) i post m e :
  schedule ≡ₚ seq 0 (length matchesArray) →
  schedule = (pre ++ i :: post)%list →
  (∀ j mj, j ∈ pre → matchesArray !! j = Some mj → ∃ link, resolve mj = Ok link) →
  matchesArray !! i = Some m →
  resolve m = Throw e →
  getLinks fs schedule fileContent project pagesDirectory = Rejected e.
Proof.
  intros Hperm -> Hpre Hm He.
  rewrite getLinks_complete by done.
  rewrite firstRejection_app_fulfilled.
  - cbn. by rewrite list_lookup_fmap, Hm; cbn; rewrite He.
  - intros j Hj. rewrite list_lookup_fmap.
    assert (Hlt : (j < length matchesArray)%nat).
    { assert (Hin : j ∈ (pre ++ i :: post)%list) by (apply elem_of_app; by left).
      rewrite Hperm, elem_of_seq in Hin. lia. }
    apply lookup_lt_is_Some_2 in Hlt as [mj Hmj]. rewrite Hmj. cbn.
    destruct (Hpre j mj Hj Hmj) as [link ->]. by exists link.
Qed.

(** X6.  A match whose capture holds a line break makes the whole call
    reject: no line contains such a capture, so its position cannot be
    computed, whatever the file system holds. *)
Theorem capture_across_lines_rejects schedule m :
  schedule ≡ₚ seq 0 (length matchesArray) →
  m ∈ matchesArray →
  containsChar newline (m_group1 m) = true →
  (∃ e, resolve m = Throw e) ∧
  ∃ e, getLinks fs schedule fileContent project pagesDirectory = Rejected e.
Proof.
  intros Hperm Hm Hnl.
  assert (Hres : ∃ e, resolve m = Throw e).
  { unfold resolveMatch. destruct (fg _ _ _) as [files|e]; [cbn|by exists e].
    rewrite matchIndexToPosition_absent; [by eexists|].
    intros l Hl. destruct (Js.includes l (m_group1 m)) eqn:Hinc; [|done].
    pose proof (includes_containsChar _ _ _ Hinc Hnl) as Hc.
    by rewrite (split_lines_without_separator _ _ _ Hl) in Hc. }
  split; [done|]. destruct Hres as [e He].
  rewrite getLinks_complete by done.
  apply list_elem_of_lookup in Hm as [i Hi].
  assert (Hin : i ∈ schedule).
  { rewrite Hperm, elem_of_seq. apply lookup_lt_Some in Hi. lia. }
  assert (Hthrow : map resolve matchesArray !! i = Some (Throw e)).
  { by rewrite list_lookup_fmap, Hi, <- He. }
  destruct (firstRejection_is_Some _ schedule i e Hin Hthrow) as [e' ->].
  by exists e'.
Qed.

End LinkerEdges.

(** X4.  The file name derived from a capture holds no dot and no
    quote, and is no longer than the capture: the only dot of the
    searched name is the one of the extension. *)
Theorem fileName_has_no_dot_or_quote m c :
  isDot c || isQuote c = true →
  containsChar c (fileNameOf m) = false ∧
  (String.length (fileNameOf m) ≤ String.length (m_group1 m))%nat.
Proof.
  intros Hc. unfold fileNameOf, stripQuotes.
  induction (m_group1 m) as [|x s [IH1 IH2]]; [done|].
  cbn [Js.replaceAll]. destruct (isQuote x) eqn:Eq.
  - rewrite append_nil_l. split; [done|]. cbn [String.length]. lia.
  - cbn [Js.replaceAll]. destruct (isDot x) eqn:Ed.
    + rewrite append_cons, append_nil_l. cbn [containsChar String.length].
      split; [|lia]. rewrite IH1, orb_false_r.
      destruct (Ascii.eqb_spec "/" c) as [<-|]; [|done]. by cbn in Hc.
    + cbn [containsChar String.length]. split; [|lia].
      rewrite IH1, orb_false_r.
      destruct (Ascii.eqb_spec x c) as [<-|]; [|done].
      by rewrite Ed, Eq in Hc.
Qed.

(** ** [parseCreatedFilename] *)

Section ParseFacts.
Import Command.

Lemma dropChars_append a b : dropChars (String.length a) (a ++ b) = b.
Proof. induction a as [|c a IH]; [by destruct b|]. rewrite append_cons. exact IH. Qed.

Lemma takeLine_append name post :
  allChars notLineTerminator name = true →
  takeLine (name ++ post) = name ++ takeLine post.
Proof.
  induction name as [|c name IH]; [done|]. cbn [allChars].
  intros [Hc Hname]%andb_true_iff. rewrite !append_cons. cbn [takeLine].
  unfold notLineTerminator in Hc. apply negb_true_iff in Hc. rewrite Hc.
  by rewrite IH.
Qed.

(** A text is its first line followed by nothing or by a line
    terminator. *)
Lemma takeLine_split s :
  ∃ post, s = takeLine s ++ post ∧
          allChars notLineTerminator (takeLine s) = true ∧
          takeLine post = EmptyString.
Proof.
  induction s as [|c s (post & Hs & Hall & Hpost)].
  - by exists EmptyString.
  - cbn [takeLine]. destruct (Text.isLineTerminator c) eqn:Ec.
    + exists (String c s). split_and!; [done|done|]. cbn. by rewrite Ec.
    + exists post. rewrite append_cons, <- Hs. split_and!; [done| |done].
      cbn [allChars]. unfold notLineTerminator at 1. by rewrite Ec.
Qed.

Lemma takeLine_empty_head c s :
  takeLine (String c s) = EmptyString → Text.isLineTerminator c = true.
Proof. cbn. by destruct (Text.isLineTerminator c). Qed.

Lemma parse_marker_here rest :
  takeLine rest ≠ EmptyString →
  parseCreatedFilename (createMarker ++ rest) = Some (takeLine rest).
Proof.
  intros Hne.
  change (createMarker ++ rest) with (String "C" ("REATE: " ++ rest)).
  cbn [parseCreatedFilename].
  change (String "C" ("REATE: " ++ rest)) with (createMarker ++ rest).
  assert (Hp : String.prefix createMarker (createMarker ++ rest) = true).
  { apply prefix_split. by exists rest. }
  rewrite Hp, dropChars_append. by destruct (takeLine rest).
Qed.

Lemma parse_step c s :
  parseCreatedFilename (String c s) =
    if String.prefix createMarker (String c s) then
      match takeLine (dropChars (String.length createMarker) (String c s)) with
      | EmptyString => parseCreatedFilename s
      | filename => Some filename
      end
    else parseCreatedFilename s.
Proof. reflexivity. Qed.

Lemma parseCreatedFilename_nonempty stdout filename :
  parseCreatedFilename stdout = Some filename → filename ≠ EmptyString.
Proof.
  induction stdout as [|c s IH]; [done|]. rewrite parse_step.
  destruct (String.prefix createMarker (String c s)); [|exact IH].
  destruct (takeLine _) as [|x t]; [exact IH|]. by intros [= <-].
Qed.

End ParseFacts.

(** X7.  A file name returned by [parseCreatedFilename] stands in the
    output right after the marker [CREATE: ]; it is not empty, holds no
    line terminator and runs to the end of its line. *)
Theorem parseCreatedFilename_sound stdout filename :
  Command.parseCreatedFilename stdout = Some filename →
  ∃ pre post,
    stdout = pre ++ Command.createMarker ++ filename ++ post ∧
    filename ≠ EmptyString ∧
    allChars notLineTerminator filename = true ∧
    Command.takeLine post = EmptyString.
Proof.
  induction stdout as [|c s IH]; [done|].
  rewrite parse_step.
  destruct (String.prefix Command.createMarker (String c s)) eqn:Hp.
  - apply prefix_split in Hp as [rest Hrest]. rewrite Hrest, dropChars_append.
    destruct (Command.takeLine rest) as [|x t] eqn:Et.
    + rewrite <- Hrest. intros Hs. destruct (IH Hs) as (pre & post & -> & Hrestof).
      by exists (String c pre), post.
    + intros [= <-]. destruct (takeLine_split rest) as (post & Hsplit & Hall & Hpost).
      rewrite Et in Hsplit, Hall. exists EmptyString, post.
      rewrite append_nil_l, <- Hsplit. done.
  - intros Hs. destruct (IH Hs) as (pre & post & -> & Hrestof).
    by exists (String c pre), post.
Qed.

(** X8.  [parseCreatedFilename] returns null exactly when every marker
    [CREATE: ] of the output is followed by a line terminator or by
    the end of the output. *)
Theorem parseCreatedFilename_null_iff stdout :
  Command.parseCreatedFilename stdout = None ↔
  ∀ pre c post,
    stdout = pre ++ Command.createMarker ++ String c post →
    Text.isLineTerminator c = true.
Proof.
  induction stdout as [|x s IH].
  - split; [|done]. intros _ pre c post Hs. destruct pre; discriminate.
  - rewrite parse_step.
    destruct (String.prefix Command.createMarker (String x s)) eqn:Hp.
    + apply prefix_split in Hp as [rest Hrest]. rewrite Hrest, dropChars_append.
      destruct (Command.takeLine rest) as [|y t] eqn:Et.
      * rewrite <- Hrest, IH. split.
        -- intros Hall [|z pre] c post Hs.
           ++ rewrite append_nil_l, Hrest in Hs.
              apply (inj (String.app _)) in Hs. subst rest.
              by apply takeLine_empty_head in Et.
           ++ rewrite append_cons in Hs. injection Hs as -> Hs.
              by apply (Hall pre c post).
        -- intros Hall pre c post Hs. apply (Hall (String x pre) c post).
           by rewrite append_cons, Hs.
      * split; [done|]. intros Hall. exfalso.
        destruct rest as [|r rest]; [done|].
        specialize (Hall EmptyString r rest eq_refl).
        cbn in Et. by rewrite Hall in Et.
    + rewrite IH. split.
      * intros Hall [|z pre] c post Hs.
        -- rewrite append_nil_l in Hs.
           assert (String.prefix Command.createMarker (String x s) = true)
             by (apply prefix_split; eauto).
           congruence.
        -- rewrite append_cons in Hs. injection Hs as -> Hs.
           by apply (Hall pre c post).
      * intros Hall pre c post Hs. apply (Hall (String x pre) c post).
        by rewrite append_cons, Hs.
Qed.

(** X9.  The marker at the head of the output followed by a name
    without line terminator gives back that name, whatever follows on
    the next lines. *)
Theorem parseCreatedFilename_first_line filename post :
  filename ≠ EmptyString →
  allChars notLineTerminator filename = true →
  Command.takeLine post = EmptyString →
  Command.parseCreatedFilename (Command.createMarker ++ filename ++ post)
  = Some filename.
Proof.
  intros Hne Hall Hpost.
  assert (Hline : Command.takeLine (filename ++ post) = filename).
  { by rewrite takeLine_append, Hpost, append_nil_r. }
  rewrite parse_marker_here; rewrite Hline; done.
Qed.

(** ** The place holder of [getInput] *)

Section WhiteSpaceFacts.
Import Text.

Lemma collapseFrom_spaces s :
  adjacentSpaces (collapseFrom false s) = false ∧
  adjacentSpaces (collapseFrom true s) = false ∧
  startsWithSpace (collapseFrom true s) = false.
Proof.
  induction s as [|c s (IHf & IHt & IHs)]; [done|].
  cbn [collapseFrom]. destruct (isWhiteSpace c) eqn:Ec.
  - split; [|done]. destruct s as [|d s]; [cbn; by rewrite Ec|].
    destruct (isWhiteSpace d) eqn:Ed.
    + cbn [adjacentSpaces]. by rewrite IHs, IHt, andb_false_r.
    + cbn [adjacentSpaces]. rewrite IHf. cbn [collapseFrom]. rewrite Ed.
      cbn [startsWithSpace]. by rewrite Ed, andb_false_r.
  - cbn [adjacentSpaces startsWithSpace]. by rewrite Ec, IHf.
Qed.

Lemma collapseFrom_fixed s :
  adjacentSpaces s = false → collapseFrom false s = s.
Proof.
  induction s as [|c s IH]; [done|]. cbn [adjacentSpaces collapseFrom].
  intros [Hc Hs]%orb_false_iff. rewrite (IH Hs).
  destruct (isWhiteSpace c); [|done].
  destruct s as [|d s]; [done|]. cbn in Hc. by rewrite Hc.
Qed.

Lemma trimStart_starts s : startsWithSpace (trimStart s) = false.
Proof.
  induction s as [|c s IH]; [done|]. cbn [trimStart].
  destruct (isWhiteSpace c) eqn:Ec; [done|]. cbn. by rewrite Ec.
Qed.

Lemma trimStart_adjacent s :
  adjacentSpaces s = false → adjacentSpaces (trimStart s) = false.
Proof.
  induction s as [|c s IH]; [done|]. cbn [trimStart].
  destruct (isWhiteSpace c); [|done].
  cbn [adjacentSpaces]. intros [_ Hs]%orb_false_iff. by apply IH.
Qed.

Lemma trimStart_fixed s : startsWithSpace s = false → trimStart s = s.
Proof. destruct s as [|c s]; [done|]. cbn. by intros ->. Qed.

Lemma trimEnd_cons c s :
  trimEnd (String c s) =
    match trimEnd s with
    | EmptyString => if isWhiteSpace c then EmptyString else String c EmptyString
    | t => String c t
    end.
Proof. reflexivity. Qed.

Lemma trimEnd_head s y t : trimEnd s = String y t → ∃ s', s = String y s'.
Proof.
  destruct s as [|c s]; [done|]. rewrite trimEnd_cons.
  destruct (trimEnd s); [destruct (isWhiteSpace c)|]; intros [= <- _]; by eexists.
Qed.

Lemma trimEnd_ends s : endsWithSpace (trimEnd s) = false.
Proof.
  induction s as [|c s IH]; [done|]. rewrite trimEnd_cons.
  destruct (trimEnd s) as [|y t].
  - destruct (isWhiteSpace c) eqn:Ec; [done|]. cbn. by rewrite Ec.
  - exact IH.
Qed.

Lemma trimEnd_starts s :
  startsWithSpace s = false → startsWithSpace (trimEnd s) = false.
Proof.
  destruct s as [|c s]; [done|]. rewrite trimEnd_cons. cbn [startsWithSpace].
  intros Hc. destruct (trimEnd s); [by rewrite Hc|]. done.
Qed.

Lemma trimEnd_adjacent s :
  adjacentSpaces s = false → adjacentSpaces (trimEnd s) = false.
Proof.
  induction s as [|c s IH]; [done|]. rewrite trimEnd_cons.
  cbn [adjacentSpaces]. intros [Hc Hs]%orb_false_iff.
  destruct (trimEnd s) as [|y t] eqn:Et.
  - destruct (isWhiteSpace c); [done|]. cbn. by rewrite andb_false_r.
  - cbn [adjacentSpaces] in *. rewrite (IH Hs), orb_false_r.
    apply trimEnd_head in Et as [s' ->]. exact Hc.
Qed.

Lemma trimEnd_fixed s : endsWithSpace s = false → trimEnd s = s.
Proof.
  induction s as [|c s IH]; [done|]. rewrite trimEnd_cons.
  destruct s as [|d s].
  - cbn. by intros ->.
  - intros Hs. by rewrite (IH Hs).
Qed.

End WhiteSpaceFacts.

(** X10.  [getInput] shows one input box whose place holder has no
    white space at either end and no two white space characters in a
    row, returns the answer, or the empty string when the box is
    dismissed; a place holder already in that form is shown as it is. *)
Theorem getInput_place_holder placeHolder answer w :
  let shown := Text.trim (Text.collapseWhiteSpace placeHolder) in
  Command.getInput placeHolder answer w
  = (Command.Done (default EmptyString answer),
     {| Command.projects := Command.projects w;
        Command.window := Command.window w;
        Command.events := (Command.events w ++ [Command.ShowInputBox shown])%list |}) ∧
  startsWithSpace shown = false ∧
  endsWithSpace shown = false ∧
  adjacentSpaces shown = false ∧
  Text.trim (Text.collapseWhiteSpace shown) = shown.
Proof.
  intros shown.
  assert (Hadj : adjacentSpaces shown = false).
  { apply trimEnd_adjacent, trimStart_adjacent, collapseFrom_spaces. }
  assert (Hstart : startsWithSpace shown = false).
  { apply trimEnd_starts, trimStart_starts. }
  assert (Hend : endsWithSpace shown = false) by apply trimEnd_ends.
  split_and!; try done.
  unfold Text.trim, Text.collapseWhiteSpace.
  by rewrite collapseFrom_fixed, trimStart_fixed, trimEnd_fixed.
Qed.

(** ** [pickAdonisProject] *)

Section PickFacts.
Import Command.

Lemma pickAdonisProject_prompt pick w :
  length (projects w) ≠ 1%nat →
  pickAdonisProject pick w
  = (Done (findProject (projects w) (pick ≫= (map itemOf (projects w) !!.))),
     {| projects := projects w; window := window w;
        events := events w ++
          [ShowQuickPick (map itemOf (projects w))
             "Select the project in which you want to run this command"] |}).
Proof.
  destruct w as [ps win evs]. cbn [projects window events].
  intros Hlen. unfold pickAdonisProject. cbn [projects].
  destruct ps as [|p [|q ps]]; [reflexivity|done|reflexivity].
Qed.

Lemma pickAdonisProject_single pick w project :
  projects w = [project] →
  pickAdonisProject pick w = (Done (Some (0%nat, project)), w).
Proof. intros E. unfold pickAdonisProject. by rewrite E. Qed.

Lemma pickAdonisProject_returns_a_project pick w :
  ∃ picked w',
    pickAdonisProject pick w = (Done picked, w') ∧
    projects w' = projects w ∧
    window w' = window w ∧
    (∀ i project, picked = Some (i, project) → projects w !! i = Some project).
Proof.
  destruct (decide (length (projects w) = 1%nat)) as [Hone|Hmany].
  - destruct (projects w) as [|p [|q ps]] eqn:E; try done.
    exists (Some (0%nat, p)), w. rewrite (pickAdonisProject_single pick w p E).
    split_and!; try done. intros i project [= <- <-]. done.
  - rewrite (pickAdonisProject_prompt pick w Hmany).
    eexists _, _. split; [done|]. cbn. split_and!; try done.
    intros i project Hfind. unfold findProject in Hfind.
    by apply list_find_Some in Hfind as (Hi & _).
Qed.

End PickFacts.

(** X11.  [pickAdonisProject] never fails and returns nothing but a
    project of the workspace, leaving projects and window as they are;
    with exactly one project it returns it without asking, otherwise
    it shows one quick pick with an item per project. *)
Theorem pickAdonisProject_returns_a_workspace_project pick w :
  ∃ picked w',
    Command.pickAdonisProject pick w = (Command.Done picked, w') ∧
    Command.projects w' = Command.projects w ∧
    Command.window w' = Command.window w ∧
    (∀ i project, picked = Some (i, project) →
       Command.projects w !! i = Some project) ∧
    (∀ project, Command.projects w = [project] →
       picked = Some (0%nat, project) ∧ Command.events w' = Command.events w) ∧
    (length (Command.projects w) ≠ 1%nat →
       ∃ placeHolder,
         Command.events w' =
           (Command.events w ++
              [Command.ShowQuickPick (map itemOf (Command.projects w)) placeHolder])%list).
Proof.
  destruct (decide (length (Command.projects w) = 1%nat)) as [Hone|Hmany].
  - destruct (Command.projects w) as [|p [|q ps]] eqn:E; try done.
    exists (Some (0%nat, p)), w. rewrite (pickAdonisProject_single pick w p E).
    split_and!; try done.
    + intros i project [= <- <-]. done.
    + by intros project [= <-].
  - rewrite (pickAdonisProject_prompt pick w Hmany).
    eexists _, _. split; [done|]. cbn. split_and!; try done.
    + intros i project Hfind. unfold Command.findProject in Hfind.
      by apply list_find_Some in Hfind as (Hi & _).
    + intros project E. rewrite E in Hmany. done.
    + intros _. by eexists.
Qed.

(** X12.  When the user picks the item of a project, the project
    returned is the first of the workspace with the path of that item
    (no project before it has that path): the picked one when the
    paths of the workspace are distinct. *)
Theorem pickAdonisProject_returns_first_with_path i project w :
  length (Command.projects w) ≠ 1%nat →
  Command.projects w !! i = Some project →
  ∃ j first w',
    Command.pickAdonisProject (Some i) w = (Command.Done (Some (j, first)), w') ∧
    (j ≤ i)%nat ∧
    Command.projects w !! j = Some first ∧
    Command.path first = Command.path project ∧
    (NoDup (map Command.path (Command.projects w)) → j = i ∧ first = project) ∧
    (∀ k earlier, (k < j)%nat → Command.projects w !! k = Some earlier →
       Command.path earlier ≠ Command.path project).
Proof.
  intros Hmany Hi. rewrite (pickAdonisProject_prompt _ w Hmany).
  cbn [mbind option_bind]. rewrite list_lookup_fmap, Hi. cbn [fmap option_fmap option_map].
  unfold Command.findProject.
  destruct (list_find (λ p, Some (Command.path p)
                            = Command.description <$> Some (itemOf project))
              (Command.projects w)) as [[j first]|] eqn:Ef.
  - apply list_find_Some in Ef as (Hj & Hpath & Hfirst). cbn in Hpath.
    injection Hpath as Hpath.
    assert (Hle : (j ≤ i)%nat).
    { destruct (decide (j ≤ i)%nat) as [|Hgt]; [done|]. exfalso.
      apply (Hfirst i project Hi); [lia|done]. }
    eexists j, first, _. split_and!; try done.
    + intros Hnodup.
      assert (j = i) as ->.
      { eapply NoDup_lookup; [exact Hnodup| |];
          rewrite list_lookup_fmap; [by rewrite Hj|by rewrite Hi; cbn; rewrite Hpath]. }
      split; [done|congruence].
    + intros k earlier Hlt Hk Heq. apply (Hfirst k earlier Hk Hlt).
      cbn. by rewrite Heq.
  - exfalso. apply list_find_None in Ef. rewrite Forall_forall in Ef.
    apply (Ef project); [by eapply list_elem_of_lookup_2|done].
Qed.

(** ** The Ace terminal *)

Section TerminalFacts.

Lemma filter_alter_length {A} (P : A → Prop) `{∀ x, Decision (P x)}
    (f : A → A) i (l : list A) :
  (∀ x, P (f x) ↔ P x) →
  length (filter P (alter f i l)) = length (filter P l).
Proof.
  intros Hf. revert i. induction l as [|x l IH]; intros i; [done|].
  destruct i as [|i]; cbn [alter list_alter].
  - destruct (decide (P x)) as [Hx|Hx].
    + rewrite !filter_cons_True by (done || by apply Hf). done.
    + rewrite !filter_cons_False by (done || by rewrite Hf). done.
  - destruct (decide (P x)) as [Hx|Hx].
    + rewrite !filter_cons_True by done. cbn. f_equal. apply IH.
    + rewrite !filter_cons_False by done. apply IH.
Qed.

Lemma filter_nil_Forall {A} (P : A → Prop) `{∀ x, Decision (P x)} (l : list A) :
  filter P l = [] ↔ Forall (λ x, ¬ P x) l.
Proof.
  induction l as [|x l IH]; [by split|].
  destruct (decide (P x)) as [Hx|Hx].
  - rewrite filter_cons_True by done. split; [done|].
    intros Hall. apply Forall_cons in Hall as [Hnx _]. done.
  - rewrite filter_cons_False by done. rewrite IH. split.
    + intros Hall. by apply Forall_cons.
    + intros Hall. by apply Forall_cons in Hall as [_ Hall].
Qed.

Variable platform : string.

Local Abbreviation send := (AceExecutor.sendTextToAdonisTerminal platform).

Lemma ace_send_existing command w i t :
  list_find (λ t, Editor.name t = "AdonisJS Ace") (Editor.terminals w) = Some (i, t) →
  send command w =
    {| Editor.terminals := alter (received command) i (Editor.terminals w);
       Editor.activeTerminal := Some i |}.
Proof. intros Hfind. unfold AceExecutor.sendTextToAdonisTerminal. by rewrite Hfind. Qed.

Lemma ace_send_created command w :
  list_find (λ t, Editor.name t = "AdonisJS Ace") (Editor.terminals w) = None →
  send command w =
    {| Editor.terminals :=
         Editor.terminals w ++
           [{| Editor.name := "AdonisJS Ace";
               Editor.shellPath := AceExecutor.shellPath platform;
               Editor.sent := [command] |}];
       Editor.activeTerminal := Some (length (Editor.terminals w)) |}.
Proof.
  intros Hfind. unfold AceExecutor.sendTextToAdonisTerminal. rewrite Hfind.
  unfold Editor.createTerminal, Editor.sendText, Editor.show. cbn.
  f_equal. rewrite alter_app_r_alt by done. by rewrite Nat.sub_diag.
Qed.

End TerminalFacts.

(** X13.  [AceExecutor.sendTextToAdonisTerminal] never opens a second
    Ace terminal: afterwards the window has as many terminals of that
    name as before, or one if it had none; the command is the last
    text of the first of them, which is the active terminal, and the
    other terminals are as they were. *)
Theorem ace_terminal_is_opened_once platform command w :
  let w' := AceExecutor.sendTextToAdonisTerminal platform command w in
  length (aceTerminals w') = max 1 (length (aceTerminals w)) ∧
  ∃ i t before,
    Editor.terminals w' !! i = Some t ∧
    Editor.name t = "AdonisJS Ace" ∧
    Editor.sent t = (before ++ [command])%list ∧
    Editor.activeTerminal w' = Some i ∧
    (∀ j t', (j < i)%nat → Editor.terminals w' !! j = Some t' →
             Editor.name t' ≠ "AdonisJS Ace") ∧
    (∀ j, j ≠ i → Editor.terminals w' !! j = Editor.terminals w !! j).
Proof.
  intros w'. subst w'. unfold aceTerminals.
  destruct (list_find (λ t, Editor.name t = "AdonisJS Ace") (Editor.terminals w))
    as [[i t]|] eqn:Hfind.
  - rewrite (ace_send_existing _ _ _ _ _ Hfind). cbn [Editor.terminals Editor.activeTerminal].
    apply list_find_Some in Hfind as (Hi & Hname & Hfirst).
    split.
    + rewrite filter_alter_length by done.
      assert (t ∈ filter (λ t, Editor.name t = "AdonisJS Ace") (Editor.terminals w)) as Hin.
      { apply list_elem_of_filter. split; [done|by eapply list_elem_of_lookup_2]. }
      destruct (filter _ _); [by apply elem_of_nil in Hin|cbn; lia].
    + exists i, (received command t), (Editor.sent t). split_and!; try done.
      * by rewrite list_lookup_alter_eq, Hi.
      * intros j t' Hj Ht'. rewrite list_lookup_alter_ne in Ht' by lia.
        by apply (Hfirst j t').
      * intros j Hj. by rewrite list_lookup_alter_ne.
  - rewrite (ace_send_created _ _ _ Hfind). cbn [Editor.terminals Editor.activeTerminal].
    apply list_find_None in Hfind.
    assert (Hnone : filter (λ t, Editor.name t = "AdonisJS Ace") (Editor.terminals w) = []).
    { apply filter_nil_Forall. exact Hfind. }
    split.
    + rewrite filter_app, Hnone. done.
    + exists (length (Editor.terminals w)),
        {| Editor.name := "AdonisJS Ace";
           Editor.shellPath := AceExecutor.shellPath platform;
           Editor.sent := [command] |}, []. split_and!; try done.
      * by rewrite lookup_app_r, Nat.sub_diag.
      * intros j t' Hj Ht'. rewrite lookup_app_l in Ht' by done.
        rewrite Forall_forall in Hfind. apply Hfind.
        by eapply list_elem_of_lookup_2.
      * intros j Hj. destruct (decide (j < length (Editor.terminals w))%nat).
        -- by rewrite lookup_app_l.
        -- rewrite !lookup_ge_None_2; [done|lia|].
           rewrite length_app. cbn. lia.
Qed.

(** X14.  In a window without Ace terminal, any number of commands
    sent one after the other end up, in their order, in one new
    terminal placed after the terminals that were there. *)
Theorem ace_commands_share_one_terminal platform command commands w :
  aceTerminals w = [] →
  Editor.terminals
    (foldl (λ w c, AceExecutor.sendTextToAdonisTerminal platform c w) w
       (command :: commands))
  = (Editor.terminals w ++
       [{| Editor.name := "AdonisJS Ace";
           Editor.shellPath := AceExecutor.shellPath platform;
           Editor.sent := command :: commands |}])%list.
Proof.
  intros Hnone. unfold aceTerminals in Hnone.
  assert (Hfind : list_find (λ t, Editor.name t = "AdonisJS Ace") (Editor.terminals w) = None).
  { apply list_find_None. by apply (filter_nil_Forall (λ t, Editor.name t = "AdonisJS Ace")). }
  cbn [foldl]. rewrite (ace_send_created _ _ _ Hfind).
  set (ts := Editor.terminals w) in *.
  assert (Hgen : ∀ cs sent0 active,
    Editor.terminals
      (foldl (λ w c, AceExecutor.sendTextToAdonisTerminal platform c w)
         {| Editor.terminals :=
              ts ++ [{| Editor.name := "AdonisJS Ace";
                        Editor.shellPath := AceExecutor.shellPath platform;
                        Editor.sent := sent0 |}];
            Editor.activeTerminal := active |} cs)
    = (ts ++ [{| Editor.name := "AdonisJS Ace";
                 Editor.shellPath := AceExecutor.shellPath platform;
                 Editor.sent := sent0 ++ cs |}])%list).
  { induction cs as [|c cs IH]; intros sent0 active.
    - cbn. by rewrite app_nil_r.
    - cbn [foldl].
      erewrite ace_send_existing; last first.
      { cbn [Editor.terminals]. apply list_find_Some. split_and!.
        - by rewrite lookup_app_r, Nat.sub_diag.
        - done.
        - intros j t' Hj Hlt. rewrite lookup_app_l in Hj by done.
          apply list_find_None in Hfind. rewrite Forall_forall in Hfind.
          apply Hfind. by eapply list_elem_of_lookup_2. }
      cbn [Editor.terminals]. rewrite alter_app_r_alt by done.
      rewrite Nat.sub_diag. cbn [alter list_alter]. unfold received at 1. cbn.
      rewrite IH. by rewrite <- app_assoc. }
  apply Hgen.
Qed.

(** X15.  [BaseCommand.sendTextToAdonisTerminal] looks at the active
    terminal only: it sends the command there when that terminal is
    the Ace terminal, and otherwise opens a new Ace terminal for it,
    also when a terminal of that name is open but not active. *)
Theorem command_terminal_follows_the_active_one command w :
  let win := Command.window w in
  let w' := snd (Command.sendTextToAdonisTerminal command w) in
  fst (Command.sendTextToAdonisTerminal command w) = Command.Done tt ∧
  Command.projects w' = Command.projects w ∧
  Command.events w' = Command.events w ∧
  (∀ i t, Editor.activeTerminal win = Some i →
          Editor.terminals win !! i = Some t →
          Editor.name t = "AdonisJS Ace" →
          Command.window w' =
            {| Editor.terminals := alter (received command) i (Editor.terminals win);
               Editor.activeTerminal := Some i |}) ∧
  ((∀ i t, Editor.activeTerminal win = Some i →
           Editor.terminals win !! i = Some t →
           Editor.name t ≠ "AdonisJS Ace") →
   Command.window w' =
     {| Editor.terminals :=
          Editor.terminals win ++
            [{| Editor.name := "AdonisJS Ace"; Editor.shellPath := None;
                Editor.sent := [command] |}];
        Editor.activeTerminal := Some (length (Editor.terminals win)) |}).
Proof.
  intros win w'. subst win w'. unfold Command.sendTextToAdonisTerminal.
  assert (Hcreate :
    Editor.sendText (length (Editor.terminals (Command.window w))) command
      (Editor.show (length (Editor.terminals (Command.window w)))
         (snd (Editor.createTerminal "AdonisJS Ace" None (Command.window w))))
    = {| Editor.terminals :=
           Editor.terminals (Command.window w) ++
             [{| Editor.name := "AdonisJS Ace"; Editor.shellPath := None;
                 Editor.sent := [command] |}];
         Editor.activeTerminal := Some (length (Editor.terminals (Command.window w))) |}).
  { unfold Editor.createTerminal, Editor.sendText, Editor.show. cbn. f_equal.
    rewrite alter_app_r_alt by done. by rewrite Nat.sub_diag. }
  destruct (Editor.activeTerminal (Command.window w)) as [i|] eqn:Ea; cbn [mbind option_bind].
  - destruct (Editor.terminals (Command.window w) !! i) as [t|] eqn:Et.
    + destruct (decide (Editor.name t = "AdonisJS Ace")) as [Hn|Hn].
      * rewrite bool_decide_eq_true_2 by done. cbn. split_and!; try done.
        -- intros i' t' [= <-] Ht' _. done.
        -- intros Hno. by destruct (Hno i t eq_refl Et).
      * rewrite bool_decide_eq_false_2 by done. cbn. split_and!; try done.
        intros i' t' [= <-] Ht' Hn'. congruence.
    + cbn. split_and!; try done. intros i' t' [= <-] Ht'. congruence.
  - cbn. split_and!; try done.
Qed.

(** ** The factories of document links *)

Section ViewFactoryFacts.
Context {Uri : Type} (fileUri : string → Uri).

(** X16.  [fromViewLink] returns exactly when every link with a
    template has no negative line or column and has two different
    columns (the constructor of the document link refuses an empty
    range); a link without template is dropped before its position is
    read and can make nothing fail. *)
Theorem fromViewLink_returns_iff links :
  (∃ docs, fromViewLink Uri fileUri links = Ok docs) ↔
  Forall (λ link, nonNegative (position link)
                  ∧ colStart (position link) ≠ colEnd (position link))
    (filter (λ link, templatePath link ≠ None) links).
Proof.
  unfold fromViewLink, hasTemplate. rewrite mapR_returns.
  split; intros Hall; apply Forall_forall; intros link Hin.
  - apply (proj1 (Forall_forall _ _) Hall) in Hin as [doc Hdoc].
    by apply toDocumentLink_Ok in Hdoc as (p & _ & Hnn & Hne & _).
  - pose proof (proj1 (Forall_forall _ _) Hall _ Hin) as [Hnn Hne].
    apply list_elem_of_filter in Hin as [Hp _].
    destruct (templatePath link) as [p|] eqn:Ep; [|done].
    eexists. apply toDocumentLink_Ok. by exists p.
Qed.

(** X17.  The document links [fromViewLink] returns are those of the
    links with a template, in their order: each targets the file of
    its link and spans, on the line of the link, the columns from the
    smaller to the larger, so that no range runs backwards. *)
Theorem fromViewLink_links_in_order links docs :
  fromViewLink Uri fileUri links = Ok docs →
  map Vscode.target docs = omap (λ link, fileUri <$> templatePath link) links ∧
  map Vscode.range docs
  = map (λ link, rangeOf (position link))
      (filter (λ link, templatePath link ≠ None) links) ∧
  Forall (λ doc, Vscode.isBefore (Vscode.end_ (Vscode.range doc))
                   (Vscode.start (Vscode.range doc)) = false) docs.
Proof.
  unfold fromViewLink, hasTemplate. intros Hdocs. apply mapR_Ok in Hdocs.
  revert docs Hdocs. induction links as [|link links IH]; intros docs Hdocs.
  - apply Forall2_nil_inv_l in Hdocs as ->. by split_and!.
  - destruct (templatePath link) as [p|] eqn:Hp.
    + rewrite filter_cons_True in Hdocs |- * by (rewrite Hp; done).
      apply Forall2_cons_inv_l in Hdocs as (doc & docs' & Hdoc & Hrest & ->).
      apply toDocumentLink_Ok in Hdoc as (p' & Hp' & Hnn & _ & ->).
      destruct (IH _ Hrest) as (Ht & Hr & Hord).
      cbn [map omap list_omap]. rewrite Hp. cbn. rewrite Ht, Hr.
      split_and!; [congruence|done|]. constructor; [|done].
      unfold Vscode.isBefore. cbn. rewrite Z.ltb_irrefl, Z.eqb_refl. cbn.
      apply Z.ltb_ge. lia.
    + rewrite filter_cons_False in Hdocs |- * by (rewrite Hp; intros Hne; by apply Hne).
      cbn [omap list_omap]. rewrite Hp. cbn. by apply IH.
Qed.

(** X18.  [fromViewLink] distributes over concatenation: the links of
    two lists put end to end are the links of the first followed by
    those of the second, and the call fails with the first failure met. *)
Theorem fromViewLink_append links1 links2 :
  fromViewLink Uri fileUri (links1 ++ links2)%list =
    bindR (fromViewLink Uri fileUri links1)
      (λ docs1, bindR (fromViewLink Uri fileUri links2)
                  (λ docs2, Ok (docs1 ++ docs2)%list)).
Proof. unfold fromViewLink, hasTemplate. rewrite filter_app. apply mapR_app. Qed.

End ViewFactoryFacts.

Section RouteFactoryFacts.
Context {Uri Controller : Type} (fileUri : string → Uri).

Lemma toRouteControllerLink_Ok (link : RouteLink Controller) doc :
  toRouteControllerLink Uri Controller fileUri link = Ok doc ↔
  ∃ p, controllerPath link = Some p ∧ nonNegative (routePosition link) ∧
       colStart (routePosition link) ≠ colEnd (routePosition link) ∧
       doc = {| linkRange := rangeOf (routePosition link);
                linkTarget := None;
                filePath := fileUri p;
                linkController := controller link |}.
Proof.
  unfold toRouteControllerLink, nonNegative.
  destruct (controllerPath link) as [p|]; cbn; [|split; [done|by intros (p & ? & _)]].
  destruct (Vscode.newPosition (line (routePosition link)) (colStart (routePosition link)))
    as [s|e] eqn:Es; cbn.
  - apply newPosition_Ok in Es as (Hl & Hs & ->).
    destruct (Vscode.newPosition (line (routePosition link)) (colEnd (routePosition link)))
      as [s'|e] eqn:Ee; cbn.
    + apply newPosition_Ok in Ee as (_ & He & ->). rewrite newRange_same_line.
      fold (rangeOf (routePosition link)).
      destruct (Vscode.newDocumentLink (rangeOf (routePosition link)) (None : option Uri))
        as [base|e] eqn:Eb; cbn.
      * apply newDocumentLink_rangeOf in Eb as [Hne ->]. cbn.
        split; [intros [= <-]; by exists p|].
        by intros (p' & [= <-] & _ & _ & ->).
      * split; [done|]. intros (p' & _ & _ & Hne & _).
        assert (Hok : Vscode.newDocumentLink (rangeOf (routePosition link))
                        (None : option Uri)
                      = Ok {| Vscode.range := rangeOf (routePosition link);
                              Vscode.target := None |})
          by (by apply newDocumentLink_rangeOf).
        congruence.
    + split; [done|]. intros (p' & _ & (_ & _ & He) & _).
      assert (Hok : ∃ q, Vscode.newPosition (line (routePosition link))
                           (colEnd (routePosition link)) = Ok q)
        by (eexists; by apply newPosition_Ok).
      destruct Hok as [q Hq]. congruence.
  - split; [done|]. intros (p' & _ & (Hl & Hs & _) & _).
    assert (Hok : ∃ q, Vscode.newPosition (line (routePosition link))
                         (colStart (routePosition link)) = Ok q)
      by (eexists; by apply newPosition_Ok).
    destruct Hok as [q Hq]. congruence.
Qed.

(** X19.  [fromControllerLink] keeps the links with a controller path,
    in their order: each link returned carries the file of its route
    link in [filePath], the controller of that link, and the range of
    its position; the target of the document link itself is never set. *)
Theorem fromControllerLink_links_in_order (links : list (RouteLink Controller)) docs :
  fromControllerLink Uri Controller fileUri links = Ok docs →
  Forall2 (λ link doc,
             ∃ p, controllerPath link = Some p ∧
                  filePath doc = fileUri p ∧
                  linkController doc = controller link ∧
                  linkRange doc = rangeOf (routePosition link) ∧
                  linkTarget doc = None)
    (filter (λ link, controllerPath link ≠ None) links) docs.
Proof.
  unfold fromControllerLink. intros Hdocs. apply mapR_Ok in Hdocs.
  eapply Forall2_impl; [exact Hdocs|].
  intros link doc (p & Hp & _ & _ & ->)%toRouteControllerLink_Ok. by exists p.
Qed.

End RouteFactoryFacts.

(** ** [AceExecutor.exec] *)

Lemma joinWith_cons_head sep c hd tl :
  Text.joinWith sep (String c hd :: tl) = String c (Text.joinWith sep (hd :: tl)).
Proof. by destruct tl. Qed.

Lemma joinWith_cons_cons sep p q r :
  Text.joinWith sep (p :: q :: r) = p ++ sep ++ Text.joinWith sep (q :: r).
Proof. reflexivity. Qed.

(** Splitting at a character and joining with it gives the text back. *)
Lemma split_joinWith sep s :
  Text.joinWith (String sep EmptyString) (Js.split sep s) = s.
Proof.
  induction s as [|c s IH]; [done|]. cbn [Js.split].
  destruct (Ascii.eqb_spec c sep) as [->|Hne].
  - destruct (split_nonempty sep s) as (hd & tl & E). rewrite E in IH |- *.
    rewrite joinWith_cons_cons, IH. done.
  - destruct (Js.split sep s) as [|hd tl].
    + cbn in IH. by subst s.
    + by rewrite joinWith_cons_head, IH.
Qed.

Lemma orElse_nonempty a b : b ≠ EmptyString → Text.orElse a b ≠ EmptyString.
Proof. by destruct a as [[|c s]|]. Qed.

Section AceExecFacts.
Variables (platform : string) (misc : AceExecutor.Misc).
Variables (E R : Type).
Variable execaNode : string → list string → AceExecutor.NodeOptions → E + R.

(** X20.  In the background (the default) [exec] touches no terminal:
    it runs the script [ace] in the project directory with the
    arguments [command.split(' ')], and returns the project as it was
    given, or fails as that run fails.  These arguments are the words
    of the command: none holds a space, and joined by spaces they are
    the command again. *)
Theorem ace_exec_in_background options w :
  AceExecutor.background options ≠ Some false →
  AceExecutor.exec platform misc E R execaNode options w =
    (match execaNode "ace" (Js.split " " (AceExecutor.command options))
             {| AceExecutor.cwd :=
                  AceExecutor.execPath platform (AceExecutor.adonisProject options);
                AceExecutor.nodeOptionsPath := AceExecutor.nodePath misc |} with
     | inl e => inl e
     | inr r => inr {| AceExecutor.result := Some r;
                       AceExecutor.returnedProject :=
                         AceExecutor.adonisProject options |}
     end, w) ∧
  Text.joinWith " " (Js.split " " (AceExecutor.command options))
  = AceExecutor.command options ∧
  Forall (λ arg, containsChar " " arg = false)
    (Js.split " " (AceExecutor.command options)).
Proof.
  intros Hbg. split_and!.
  - unfold AceExecutor.exec.
    destruct (AceExecutor.background options) as [[|]|]; [|done|]; cbn;
      by destruct (execaNode _ _ _).
  - apply split_joinWith.
  - apply Forall_forall. intros arg. apply split_lines_without_separator.
Qed.

(** X21.  In the foreground [exec] cannot fail and runs nothing itself:
    it returns the project as it was given and types one line into the
    Ace terminal, made of a change of directory to the project path
    (without its leading slash on Windows, with [/d] on Windows unless
    the Unix form is configured) and of the command run by the
    configured node binary, or by [node] when none is configured. *)
Theorem ace_exec_in_foreground options w :
  AceExecutor.background options = Some false →
  ∃ cd dir node,
    AceExecutor.exec platform misc E R execaNode options w =
      (inr {| AceExecutor.result := None;
              AceExecutor.returnedProject := AceExecutor.adonisProject options |},
       AceExecutor.sendTextToAdonisTerminal platform
         (cd ++ Text.quoted dir ++ " && " ++ Text.quoted node ++ " ace "
             ++ AceExecutor.command options) w) ∧
    (cd = if String.eqb platform "win32" && negb (AceExecutor.useUnixCd misc)
          then "cd /d " else "cd ") ∧
    path (AceExecutor.adonisProject options)
    = (if String.eqb platform "win32"
          && Text.startsWithSlash (path (AceExecutor.adonisProject options))
       then "/" else EmptyString) ++ dir ∧
    node ≠ EmptyString ∧
    (∀ c s, AceExecutor.nodePath misc = Some (String c s) → node = String c s) ∧
    (AceExecutor.nodePath misc = None ∨ AceExecutor.nodePath misc = Some EmptyString →
     node = "node").
Proof.
  intros Hfg.
  exists (if String.eqb platform "win32" && negb (AceExecutor.useUnixCd misc)
          then "cd /d " else "cd "),
    (AceExecutor.execPath platform (AceExecutor.adonisProject options)),
    (Text.orElse (AceExecutor.nodePath misc) "node").
  split_and!.
  - unfold AceExecutor.exec. rewrite Hfg. cbn [default from_option id].
    unfold AceExecutor.terminalText, AceExecutor.isWindows.
    destruct (String.eqb platform "win32" && negb (AceExecutor.useUnixCd misc));
      reflexivity.
  - done.
  - unfold AceExecutor.execPath, AceExecutor.isWindows.
    destruct (String.eqb platform "win32"); [|done]. cbn.
    destruct (path (AceExecutor.adonisProject options)) as [|c s]; [done|].
    cbn. destruct (Ascii.eqb_spec c "/") as [->|]; done.
  - by apply orElse_nonempty.
  - by intros c s ->.
  - by intros [->| ->].
Qed.

End AceExecFacts.

(** ** [execCmd] and [handleExecCmd] *)

Section CommandFacts.
Import Command.
Variable env : Env.

Lemma addEvents_nil w : addEvents w [] = w.
Proof. destruct w. unfold addEvents. cbn. by rewrite app_nil_r. Qed.

Lemma addEvents_app w es1 es2 :
  addEvents (addEvents w es1) es2 = addEvents w (es1 ++ es2).
Proof. unfold addEvents. cbn. by rewrite app_assoc. Qed.

Lemma emit_addEvents e w : emit e w = (Done tt, addEvents w [e]).
Proof. reflexivity. Qed.

Lemma showError_None message w :
  showError message None w = (Done false, addEvents w [ShowErrorMessage message]).
Proof. reflexivity. Qed.

Lemma showError_Some message err w :
  showError message (Some err) w =
    (Done false,
     addEvents w [OutputAppendLine err; OutputShow;
                  ShowErrorMessage (message ++ consoleSuffix)]).
Proof.
  destruct w as [ps win evs].
  unfold showError, bind, emit, ret, addEvents. cbn.
  by rewrite <- !app_assoc.
Qed.

Lemma tryCatch_bind {A B} (m : Cmd A) (k : A → Cmd B) h w :
  tryCatch (bind m k) h w =
    match m w with
    | (Done a, w1) => tryCatch (k a) h w1
    | (Failed e, w1) => h e w1
    end.
Proof. unfold tryCatch, bind. by destruct (m w) as [[a|e] w1]. Qed.

Lemma showOpened_events file w :
  showOpened env file w =
    (Done tt,
     addEvents w (if openTextDocument env file
                  then [ShowTextDocument file;
                        ExecuteCommand "workbench.files.action.refreshFilesExplorer"]
                  else [ConsoleLog file])).
Proof.
  destruct w as [ps win evs].
  unfold showOpened. destruct (openTextDocument env file); [|reflexivity].
  unfold bind, emit, addEvents. cbn. by rewrite <- !app_assoc.
Qed.

Lemma append_nonempty_r (a b : string) : b ≠ EmptyString → a ++ b ≠ EmptyString.
Proof. destruct a; [done|]. by rewrite append_cons. Qed.

Lemma successMessageOf_nonempty options :
  successMessageOf env options ≠ EmptyString.
Proof. apply orElse_nonempty, append_nonempty_r. done. Qed.

Lemma sendTextToAdonisTerminal_Done command w :
  sendTextToAdonisTerminal command w
  = (Done tt, snd (sendTextToAdonisTerminal command w)).
Proof.
  unfold sendTextToAdonisTerminal.
  destruct (Editor.activeTerminal (window w)) as [i|]; cbn [mbind option_bind].
  - destruct (Editor.terminals (window w) !! i) as [t|]; [|reflexivity].
    by destruct (bool_decide (Editor.name t = "AdonisJS Ace")).
  - reflexivity.
Qed.

(** In the foreground [execCmd] has no result to return. *)
Lemma execCmd_foreground_result command project pick w res w1 :
  execCmd env command false project pick w = (Done res, w1) → result res = None.
Proof.
  assert (Hrest : ∀ ref p w0,
    (let isWindows := String.eqb (platform env) "win32" in
     bind (if isWindows && Text.startsWithSlash (path p)
           then setProjectPath ref p (Text.substring1 (path p))
           else ret p)
       (λ project,
          bind (sendTextToAdonisTerminal
                  (if isWindows && negb (useUnixCd env)
                   then "cd /d " ++ Text.quoted (path project) ++ " && "
                        ++ (Text.quoted (Text.orElse (nodePath env) "node")
                            ++ " ace " ++ command)
                   else "cd " ++ Text.quoted (path project) ++ " && "
                        ++ (Text.quoted (Text.orElse (nodePath env) "node")
                            ++ " ace " ++ command)))
            (λ _, ret {| adonisProject := project; result := None |}))) w0
    = (Done res, w1) → result res = None).
  { intros ref p w0. cbn zeta. unfold bind.
    destruct (String.eqb (platform env) "win32" && Text.startsWithSlash (path p));
      cbn [setProjectPath ret];
      rewrite sendTextToAdonisTerminal_Done; by intros [= <- _]. }
  unfold execCmd. destruct project as [[ref p]|].
  - unfold bind at 1. cbn [ret]. apply Hrest.
  - unfold bind at 1. unfold bind at 1.
    destruct (pickAdonisProject pick w) as [[[[i p]|]|e] w0]; cbn [ret]; [|done|done].
    apply Hrest.
Qed.

(** X22.  Without a project to run on (an empty workspace, or a quick
    pick dismissed while the workspace has several projects),
    [execCmd] rejects with the request to select a project after
    having shown the quick pick; it runs nothing, types nothing and
    leaves the projects as they are. *)
Theorem execCmd_without_project command background pick w :
  projects w = [] ∨ (length (projects w) ≠ 1%nat ∧ pick = None) →
  ∃ items placeHolder,
    execCmd env command background None pick w =
      (Failed SelectionNeeded, addEvents w [ShowQuickPick items placeHolder]).
Proof.
  intros Hcase.
  assert (Hmany : length (projects w) ≠ 1%nat).
  { destruct Hcase as [->|[? _]]; done. }
  assert (Hfind : findProject (projects w) (pick ≫= (map itemOf (projects w) !!.)) = None).
  { destruct Hcase as [E|[_ ->]].
    - rewrite E. done.
    - cbn. apply list_find_None, Forall_forall. by intros p _. }
  eexists _, _. unfold execCmd, bind.
  rewrite (pickAdonisProject_prompt pick w Hmany). cbn. rewrite Hfind. cbn.
  reflexivity.
Qed.

(** [execCmd] once the project is known. *)
Lemma execCmd_picked command background pick w i project w0 :
  pickAdonisProject pick w = (Done (Some (i, project)), w0) →
  projects w0 !! i = Some project →
  execCmd env command background None pick w =
    let w1 := withProject i (usedProject env project) w0 in
    if background then
      match exec env (commandLine env command) (path (usedProject env project)) with
      | inl message =>
          (Failed (ExecFailure message),
           addEvents w1 [Exec (commandLine env command)
                           (path (usedProject env project))])
      | inr r =>
          (Done {| adonisProject := usedProject env project; result := Some r |},
           addEvents w1 [Exec (commandLine env command)
                           (path (usedProject env project))])
      end
    else
      (Done {| adonisProject := usedProject env project; result := None |},
       snd (sendTextToAdonisTerminal (terminalLine env project command) w1)).
Proof.
  intros Hpick Hi. unfold execCmd. unfold bind at 1. unfold bind at 1.
  rewrite Hpick. cbn [ret]. unfold bind at 1.
  unfold usedProject, terminalLine, commandLine, usedProject. cbn [path name].
  destruct (String.eqb (platform env) "win32" && Text.startsWithSlash (path project))
    eqn:Ewin.
  - cbn [setProjectPath]. fold (withProject i {| name := name project;
                                  path := Text.substring1 (path project) |} w0).
    destruct background.
    + unfold bind. rewrite emit_addEvents. by destruct (exec env _ _).
    + unfold bind. rewrite sendTextToAdonisTerminal_Done. cbn [ret].
      by destruct (String.eqb (platform env) "win32" && negb (useUnixCd env)).
  - cbn [ret].
    assert (Hsame : withProject i {| name := name project; path := path project |} w0 = w0).
    { unfold withProject. destruct w0 as [ps win evs]. cbn in *. f_equal.
      apply list_insert_id. by destruct project. }
    rewrite Hsame. destruct project as [n p]. cbn [path name] in *.
    destruct background.
    + unfold bind. rewrite emit_addEvents. by destruct (exec env _ _).
    + unfold bind. rewrite sendTextToAdonisTerminal_Done. cbn [ret].
      by destruct (String.eqb (platform env) "win32" && negb (useUnixCd env)).
Qed.

Lemma sendTextToAdonisTerminal_projects command w :
  projects (snd (sendTextToAdonisTerminal command w)) = projects w ∧
  events (snd (sendTextToAdonisTerminal command w)) = events w.
Proof.
  unfold sendTextToAdonisTerminal.
  destruct (Editor.activeTerminal (window w)) as [i|]; cbn [mbind option_bind].
  - destruct (Editor.terminals (window w) !! i) as [t|]; [|done].
    by destruct (bool_decide (Editor.name t = "AdonisJS Ace")).
  - done.
Qed.

(** The projects after [execCmd] has found its project. *)
Lemma execCmd_picked_projects command background pick w i project w0 :
  pickAdonisProject pick w = (Done (Some (i, project)), w0) →
  projects w0 !! i = Some project →
  projects (snd (execCmd env command background None pick w))
  = <[i := usedProject env project]> (projects w0).
Proof.
  intros Hpick Hi. rewrite (execCmd_picked _ _ _ _ _ _ _ Hpick Hi). cbn zeta.
  destruct background.
  - by destruct (exec env _ _).
  - cbn [snd]. by rewrite (proj1 (sendTextToAdonisTerminal_projects _ _)).
Qed.

(** [execCmd] on a project that is given: the path it assigns reaches
    the workspace when the project is one of its objects, and only
    then. *)
Lemma execCmd_given_projects command background ref project pick w :
  projects (snd (execCmd env command background (Some (ref, project)) pick w))
  = match ref with
    | Some i =>
        if String.eqb (platform env) "win32" && Text.startsWithSlash (path project)
        then <[i := usedProject env project]> (projects w)
        else projects w
    | None => projects w
    end.
Proof.
  unfold execCmd. unfold bind at 1. cbn [ret]. unfold bind at 1.
  unfold usedProject.
  destruct (String.eqb (platform env) "win32" && Text.startsWithSlash (path project))
    eqn:Ewin; cbn [setProjectPath ret].
  - destruct background.
    + unfold bind. cbn [emit]. destruct (exec env _ _); by destruct ref.
    + unfold bind. rewrite sendTextToAdonisTerminal_Done. cbn [ret snd].
      rewrite (proj1 (sendTextToAdonisTerminal_projects _ _)). by destruct ref.
  - destruct background.
    + unfold bind. cbn [emit]. destruct (exec env _ _); by destruct ref.
    + unfold bind. rewrite sendTextToAdonisTerminal_Done. cbn [ret snd].
      rewrite (proj1 (sendTextToAdonisTerminal_projects _ _)). by destruct ref.
Qed.

(** X23.  [execCmd] writes the path it uses back into the project of
    the workspace: on Windows the project it runs on loses the leading
    slash of its path, for every later command as well; its name and
    the other projects stay, and on any other platform no project is
    changed. *)
Theorem execCmd_rewrites_the_project_path command background pick w :
  let w' := snd (execCmd env command background None pick w) in
  (platform env ≠ "win32" → projects w' = projects w) ∧
  (∀ i project w0,
     pickAdonisProject pick w = (Done (Some (i, project)), w0) →
     projects w' =
       <[i := {| name := name project;
                 path := if String.eqb (platform env) "win32"
                            && Text.startsWithSlash (path project)
                         then Text.substring1 (path project)
                         else path project |}]> (projects w)).
Proof.
  intros w'. subst w'.
  destruct (pickAdonisProject_returns_a_project pick w)
    as (picked & w0 & Hpick & Hps & _ & Hin).
  split.
  - intros Hplat. apply String.eqb_neq in Hplat.
    destruct picked as [[i project]|].
    + specialize (Hin i project eq_refl). rewrite <- Hps in Hin.
      rewrite (execCmd_picked_projects _ _ _ _ _ _ _ Hpick Hin).
      unfold usedProject. rewrite Hplat. cbn. rewrite Hps.
      apply list_insert_id. rewrite <- Hps, Hin. by destruct project.
    + unfold execCmd. unfold bind at 1. unfold bind at 1. rewrite Hpick. cbn.
      done.
  - intros i project w0' Hpick'. rewrite Hpick in Hpick'.
    injection Hpick' as -> <-.
    specialize (Hin i project eq_refl). rewrite <- Hps in Hin.
    rewrite (execCmd_picked_projects _ _ _ _ _ _ _ Hpick Hin). by rewrite Hps.
Qed.

Section Handle.
Variables (options : HandleOptions) (pick : option nat).

Local Abbreviation background := (default true (Command.background options)).
Local Abbreviation opening := (default false (openCreated options)).

(** X24.  [handleExecCmd] never rejects: whatever the command does,
    the failure ends in a message and the promise fulfils. *)
Theorem handleExecCmd_never_rejects w :
  ∃ r w', handleExecCmd env options pick w = (Done r, w').
Proof.
  unfold handleExecCmd.
  set (handler := λ err : CmdError, match err with SelectionNeeded => _ | _ => _ end).
  assert (Hh : ∀ e w0, ∃ r w', handler e w0 = (Done r, w')).
  { intros e w0. unfold handler, bind.
    destruct e; [rewrite showError_None|rewrite showError_Some..]; by eexists _, _. }
  unfold tryCatch.
  destruct (bind _ _ w) as [[r|e] w1]; [by eexists _, _|apply Hh].
Qed.

Lemma handleExecCmd_success w res w1 :
  execCmd env (command options) background None pick w = (Done res, w1) →
  opening = false →
  handleExecCmd env options pick w =
    (Done None, addEvents w1 [ShowInformationMessage (successMessageOf env options)]).
Proof.
  intros Hexec Hopen.
  unfold handleExecCmd. rewrite tryCatch_bind, Hexec. rewrite Hopen.
  fold (successMessageOf env options).
  pose proof (successMessageOf_nonempty options) as Hne.
  unfold tryCatch, bind, ret. cbn.
  destruct (successMessageOf env options) as [|c s] eqn:Em; [done|].
  reflexivity.
Qed.

(** X25.  After a command that succeeded, and when no created file is
    to be opened, [handleExecCmd] always shows a message: the given
    one, or the default built from the file type when none, or an
    empty one, is given. *)
Theorem handleExecCmd_always_reports_success w res w1 :
  execCmd env (command options) background None pick w = (Done res, w1) →
  opening = false →
  handleExecCmd env options pick w =
    (Done None, addEvents w1 [ShowInformationMessage (successMessageOf env options)]) ∧
  successMessageOf env options ≠ EmptyString ∧
  (successMessage options = None ∨ successMessage options = Some EmptyString →
   successMessageOf env options =
     capitalize env (default "file" (fileType options)) ++ " created successfully").
Proof.
  intros Hexec Hopen. split_and!.
  - by eapply handleExecCmd_success.
  - apply successMessageOf_nonempty.
  - unfold successMessageOf. by intros [->| ->].
Qed.

(** X26.  A command that fails is reported and not thrown: when no
    project was selected, one error message asks for a project and the
    result is [false]; for any other failure the error goes to the
    output channel, which is shown, and the error message points to
    it. *)
Theorem handleExecCmd_reports_failure w e w1 :
  execCmd env (command options) background None pick w = (Failed e, w1) →
  handleExecCmd env options pick w =
    match e with
    | SelectionNeeded =>
        (Done (Some false),
         addEvents w1
           [ShowErrorMessage
              "You must select an AdonisJS project on which to run your command."])
    | _ =>
        (Done None,
         addEvents w1
           [OutputAppendLine e; OutputShow;
            ShowErrorMessage (errorMessageOf options ++ consoleSuffix)])
    end.
Proof.
  intros Hexec. unfold handleExecCmd. rewrite tryCatch_bind, Hexec.
  fold (errorMessageOf options).
  destruct e; unfold bind; [rewrite showError_None|rewrite showError_Some..]; done.
Qed.

(** X27.  Asked to open the created file for a command typed into the
    terminal, [handleExecCmd] has no output to read the file name
    from: the command is sent, and then reported as failed. *)
Theorem handleExecCmd_cannot_open_in_foreground w res w1 :
  Command.background options = Some false →
  openCreated options = Some true →
  execCmd env (command options) false None pick w = (Done res, w1) →
  handleExecCmd env options pick w =
    (Done None,
     addEvents w1
       [OutputAppendLine (UndefinedRead "stdout"); OutputShow;
        ShowErrorMessage (errorMessageOf options ++ consoleSuffix)]).
Proof.
  intros Hbg Hopen Hexec. unfold handleExecCmd. rewrite Hbg, Hopen. cbn [default from_option id].
  rewrite tryCatch_bind, Hexec.
  rewrite (execCmd_foreground_result _ _ _ _ _ _ Hexec).
  fold (errorMessageOf options).
  unfold tryCatch, bind, reject. rewrite showError_Some. done.
Qed.

(** X28.  After a successful command in the background whose output
    names a created file, [handleExecCmd] asks for the document of
    that file under the project path, shows the success message, and
    then shows the document and refreshes the explorer, or logs the
    failure to open it; an output that names no file opens nothing. *)
Theorem handleExecCmd_opens_the_created_file w res r w1 :
  openCreated options = Some true →
  execCmd env (command options) background None pick w = (Done res, w1) →
  result res = Some r →
  handleExecCmd env options pick w =
    (Done None,
     addEvents w1
       (match parseCreatedFilename (stdout r) with
        | Some filename =>
            let file := join env [path (adonisProject res); filename] in
            [OpenTextDocument file;
             ShowInformationMessage (successMessageOf env options)]
            ++ (if openTextDocument env file
                then [ShowTextDocument file;
                      ExecuteCommand "workbench.files.action.refreshFilesExplorer"]
                else [ConsoleLog file])
        | None => [ShowInformationMessage (successMessageOf env options)]
        end)).
Proof.
  intros Hopen Hexec Hres. unfold handleExecCmd. rewrite Hopen. cbn [default from_option id].
  rewrite tryCatch_bind, Hexec, Hres.
  fold (successMessageOf env options).
  pose proof (successMessageOf_nonempty options) as Hne.
  destruct (successMessageOf env options) as [|c s] eqn:Em; [done|].
  unfold openCreatedFile.
  destruct (parseCreatedFilename (stdout r)) as [filename|] eqn:Ep.
  - pose proof (parseCreatedFilename_nonempty _ _ Ep) as Hfn.
    destruct (stdout r) as [|x out] eqn:Eout; [done|].
    destruct filename as [|y fn]; [done|].
    cbv [tryCatch bind openFile showMessage ret emit].
    rewrite showOpened_events. unfold addEvents. cbn [projects window events].
    by rewrite <- !app_assoc.
  - destruct (stdout r) as [|x out] eqn:Eout; reflexivity.
Qed.

End Handle.

Lemma getInput_run placeHolder answer w :
  getInput placeHolder answer w =
    (Done (default EmptyString answer),
     addEvents w [ShowInputBox (Text.trim (Text.collapseWhiteSpace placeHolder))]).
Proof. by destruct answer. Qed.

(** X29.  [Configure.run] without a package name (the input box
    dismissed or left empty) shows one error message and stops there:
    nothing is run or typed, no project is asked for. *)
Theorem configure_requires_a_package_name answer pick w :
  answer = None ∨ answer = Some EmptyString →
  configureRun env answer pick w =
    (Done None,
     addEvents w [ShowInputBox "Package name to configure";
                  ShowErrorMessage "Package name is required."]).
Proof.
  intros Hanswer. unfold configureRun. unfold bind at 1. rewrite getInput_run.
  assert (Hname : default EmptyString answer = EmptyString)
    by (by destruct Hanswer as [->| ->]).
  rewrite Hname. unfold bind. rewrite showError_None, addEvents_app. reflexivity.
Qed.

(** X30.  [Configure.run] with a package name, in a workspace of one
    project, types the line that changes to the project directory and
    runs [ace configure] with the quoted name into the terminal, and
    then shows the default success message of a created file, the
    empty message it passes being replaced. *)
Theorem configure_types_the_command c s pick project w :
  projects w = [project] →
  let packageName := String c s in
  let asked := addEvents w [ShowInputBox "Package name to configure"] in
  let typed :=
    snd (sendTextToAdonisTerminal
           (terminalLine env project ("configure " ++ Text.quoted packageName))
           (withProject 0 (usedProject env project) asked)) in
  configureRun env (Some packageName) pick w =
    (Done None,
     addEvents typed
       [ShowInformationMessage (capitalize env "file" ++ " created successfully")]) ∧
  projects typed = [usedProject env project] ∧
  events typed = events asked.
Proof.
  intros Hone packageName asked typed. subst packageName.
  assert (Hpick : pickAdonisProject pick asked = (Done (Some (0%nat, project)), asked)).
  { apply pickAdonisProject_single. exact Hone. }
  assert (Hlook : projects asked !! 0%nat = Some project).
  { unfold asked, addEvents. cbn. by rewrite Hone. }
  split_and!.
  - unfold configureRun. unfold bind at 1. rewrite getInput_run.
    cbn [default from_option id]. cbv beta iota.
    change (addEvents w
              [ShowInputBox (Text.trim (Text.collapseWhiteSpace "Package name to configure"))])
      with asked.
    erewrite handleExecCmd_success; [reflexivity| |reflexivity].
    cbn [command Command.background default from_option id].
    rewrite (execCmd_picked _ _ _ _ _ _ _ Hpick Hlook). reflexivity.
  - unfold typed. rewrite (proj1 (sendTextToAdonisTerminal_projects _ _)).
    unfold withProject, asked, addEvents. cbn. by rewrite Hone.
  - unfold typed. by rewrite (proj2 (sendTextToAdonisTerminal_projects _ _)).
Qed.

End CommandFacts.

(** ** Concrete runs *)

Lemma getLinks_without_match_witness :
  getLinks Sample.disk [2; 0]%nat "const x = 1" Sample.project "pages" = Fulfilled [].
Proof.
  exact (getLinks_without_match (H := posixHost) Sample.disk "const x = 1"
           Sample.project "pages" [2; 0]%nat ltac:(vm_compute; reflexivity)).
Defined.

Lemma sample_matches :
  matchAllInertia Sample.controller = [Sample.usersShow; Sample.home].
Proof. vm_compute. reflexivity. Qed.

Lemma sample_schedule :
  [1; 0]%nat ≡ₚ seq 0 (length (matchAllInertia Sample.controller)).
Proof. rewrite sample_matches. apply perm_swap. Qed.

Lemma sample_getLinks :
  getLinks Sample.disk [1; 0]%nat Sample.controller Sample.project "pages"
  = Fulfilled sampleLinks.
Proof. vm_compute. reflexivity. Qed.

Lemma link_positions_lie_in_their_line_witness :
  ∃ l, Js.get (Js.split newline Sample.controller) 1 = Some l ∧
       (27 ≤ Z.of_nat (String.length l))%Z.
Proof.
  destruct (link_positions_lie_in_their_line (H := posixHost) Sample.disk
              Sample.controller Sample.project "pages" [1; 0]%nat sampleLinks
              {| templatePath := Some "/proj/pages/Home.vue";
                 position := {| line := 1; colStart := 23; colEnd := 27 |} |}
              sample_schedule sample_getLinks ltac:(right; left))
    as (m & l & _ & Hget & _ & _ & _ & Hle).
  exists l. split; [exact Hget|exact Hle].
Defined.

Lemma absent_target_iff_empty_search_witness :
  ∃ files,
    fg Sample.disk (searchPattern Sample.project "pages" Sample.usersShow)
      (searchOptions Sample.project) = Ok files ∧
    files ≠ [].
Proof.
  destruct (absent_target_iff_empty_search (H := posixHost) Sample.disk
              Sample.controller Sample.project "pages" [1; 0]%nat sampleLinks 0%nat
              Sample.usersShow
              {| templatePath := Some "/proj/pages/users/Show.vue";
                 position := {| line := 0; colStart := 23; colEnd := 33 |} |}
              sample_schedule sample_getLinks
              ltac:(rewrite sample_matches; reflexivity) ltac:(reflexivity))
    as (files & Hfiles & _ & Hiff).
  exists files. split; [exact Hfiles|].
  intros Hnil. apply Hiff in Hnil. discriminate.
Defined.

Lemma fileName_has_no_dot_or_quote_witness :
  containsChar "." (fileNameOf Sample.adminUsers) = false ∧
  (String.length (fileNameOf Sample.adminUsers)
   ≤ String.length (m_group1 Sample.adminUsers))%nat.
Proof.
  exact (fileName_has_no_dot_or_quote Sample.adminUsers "." ltac:(reflexivity)).
Defined.

Lemma locked_matches :
  matchAllInertia Sample.controllerWithAdmin = [Sample.homeFirst; Sample.adminUsers].
Proof. vm_compute. reflexivity. Qed.

Lemma getLinks_rejects_with_first_completed_failure_witness :
  getLinks Sample.lockedDisk [0; 1]%nat Sample.controllerWithAdmin Sample.project "pages"
  = Rejected (SearchError "EACCES").
Proof.
  apply (getLinks_rejects_with_first_completed_failure (H := posixHost)
           Sample.lockedDisk Sample.controllerWithAdmin Sample.project "pages"
           [0; 1]%nat [0]%nat 1%nat [] Sample.adminUsers).
  - rewrite locked_matches. reflexivity.
  - reflexivity.
  - intros j mj Hj Hm. apply list_elem_of_singleton in Hj as ->.
    rewrite locked_matches in Hm. injection Hm as <-.
    eexists. vm_compute. reflexivity.
  - rewrite locked_matches. reflexivity.
  - vm_compute. reflexivity.
Defined.

Lemma capture_across_lines_rejects_witness :
  (∃ e, resolveMatch Sample.disk brokenCall Sample.project "pages" brokenMatch = Throw e) ∧
  ∃ e, getLinks Sample.disk [0]%nat brokenCall Sample.project "pages" = Rejected e.
Proof.
  assert (E : matchAllInertia brokenCall = [brokenMatch]) by (vm_compute; reflexivity).
  apply (capture_across_lines_rejects (H := posixHost)).
  - rewrite E. reflexivity.
  - rewrite E. left.
  - reflexivity.
Defined.

Lemma parseCreatedFilename_sound_witness :
  ∃ pre post,
    CommandSample.created = pre ++ Command.createMarker ++ "app/Models/User.ts" ++ post ∧
    "app/Models/User.ts" ≠ EmptyString ∧
    allChars notLineTerminator "app/Models/User.ts" = true ∧
    Command.takeLine post = EmptyString.
Proof.
  exact (parseCreatedFilename_sound CommandSample.created "app/Models/User.ts"
           ltac:(vm_compute; reflexivity)).
Defined.

Lemma parseCreatedFilename_null_iff_witness :
  Command.parseCreatedFilename ("CREATE: " ++ Sample.nl ++ "nothing") = None.
Proof.
  apply parseCreatedFilename_null_iff.
  intros pre c post Hs.
  destruct pre as [|x pre]; [by injection Hs as <- _|].
  exfalso. clear -Hs. injection Hs as _ Hs.
  repeat (destruct pre as [|? pre]; [discriminate|injection Hs as _ Hs]).
  destruct pre; discriminate.
Defined.

Lemma parseCreatedFilename_first_line_witness :
  Command.parseCreatedFilename
    (Command.createMarker ++ "app/Models/User.ts" ++ (Sample.nl ++ "Done"))
  = Some "app/Models/User.ts".
Proof.
  exact (parseCreatedFilename_first_line "app/Models/User.ts" (Sample.nl ++ "Done")
           ltac:(discriminate) ltac:(reflexivity) ltac:(reflexivity)).
Defined.

Lemma pickAdonisProject_returns_first_with_path_witness :
  ∃ j first w',
    Command.pickAdonisProject (Some 1%nat) CommandSample.twoProjects
    = (Command.Done (Some (j, first)), w') ∧
    Command.path first = Command.path CommandSample.shop.
Proof.
  destruct (pickAdonisProject_returns_first_with_path 1 CommandSample.shop
              CommandSample.twoProjects ltac:(discriminate) ltac:(reflexivity))
    as (j & first & w' & Hpick & _ & _ & Hpath & _).
  by exists j, first, w'.
Defined.

Lemma ace_commands_share_one_terminal_witness :
  Editor.terminals
    (foldl (λ w c, AceExecutor.sendTextToAdonisTerminal "linux" c w)
       {| Editor.terminals := [CommandSample.bash]; Editor.activeTerminal := Some 0%nat |}
       ["cd /a"; "cd /b"])
  = [CommandSample.bash;
     {| Editor.name := "AdonisJS Ace";
        Editor.shellPath := AceExecutor.shellPath "linux";
        Editor.sent := ["cd /a"; "cd /b"] |}].
Proof.
  exact (ace_commands_share_one_terminal "linux" "cd /a" ["cd /b"]
           {| Editor.terminals := [CommandSample.bash];
              Editor.activeTerminal := Some 0%nat |}
           ltac:(reflexivity)).
Defined.

Lemma command_terminal_follows_the_active_one_witness :
  Editor.terminals
    (Command.window
       (snd (Command.sendTextToAdonisTerminal "cd /a" CommandSample.twoProjects)))
  = [CommandSample.bash;
     {| Editor.name := "AdonisJS Ace"; Editor.shellPath := None;
        Editor.sent := ["cd /a"] |}].
Proof.
  destruct (command_terminal_follows_the_active_one "cd /a" CommandSample.twoProjects)
    as (_ & _ & _ & _ & Hnew).
  rewrite Hnew; [reflexivity|].
  intros i t [= <-] [= <-]. discriminate.
Defined.

Lemma fromViewLink_returns_iff_witness :
  ∃ docs, fromViewLink string fileUriOf sampleLinks = Ok docs.
Proof.
  apply (fromViewLink_returns_iff fileUriOf sampleLinks).
  repeat constructor; cbn; lia.
Defined.

Lemma fromViewLink_links_in_order_witness :
  map Vscode.target
    [ {| Vscode.range := rangeOf {| line := 0; colStart := 23; colEnd := 33 |};
         Vscode.target := fileUriOf "/proj/pages/users/Show.vue" |};
      {| Vscode.range := rangeOf {| line := 1; colStart := 23; colEnd := 27 |};
         Vscode.target := fileUriOf "/proj/pages/Home.vue" |} ]
  = omap (λ link, fileUriOf <$> templatePath link) sampleLinks.
Proof.
  destruct (fromViewLink_links_in_order fileUriOf sampleLinks
              [ {| Vscode.range := rangeOf {| line := 0; colStart := 23; colEnd := 33 |};
                   Vscode.target := fileUriOf "/proj/pages/users/Show.vue" |};
                {| Vscode.range := rangeOf {| line := 1; colStart := 23; colEnd := 27 |};
                   Vscode.target := fileUriOf "/proj/pages/Home.vue" |} ]
              ltac:(reflexivity)) as (Ht & _ & _).
  exact Ht.
Defined.

Lemma fromControllerLink_links_in_order_witness :
  ∃ doc,
    fromControllerLink string string fileUriOf sampleRoutes = Ok [doc] ∧
    filePath doc = fileUriOf "/proj/app/controllers/users_controller.ts" ∧
    linkTarget doc = None.
Proof.
  pose proof (fromControllerLink_links_in_order fileUriOf sampleRoutes
                [ {| linkRange := rangeOf {| line := 3; colStart := 21; colEnd := 42 |};
                     linkTarget := None;
                     filePath := fileUriOf "/proj/app/controllers/users_controller.ts";
                     linkController := Some "UsersController" |} ]
                ltac:(reflexivity)) as Hrel.
  eexists. split; [reflexivity|]. split; reflexivity.
Defined.

Lemma ace_exec_in_background_witness :
  fst (AceExecutor.exec "win32" sampleMisc string string sampleExeca sampleOptions
         CommandSample.emptyWindow)
  = inr {| AceExecutor.result := Some "ace make:model User";
           AceExecutor.returnedProject := {| path := "/c:/work/blog" |} |}.
Proof.
  destruct (ace_exec_in_background "win32" sampleMisc string string sampleExeca
              sampleOptions CommandSample.emptyWindow ltac:(discriminate))
    as (Hexec & _ & _).
  rewrite Hexec. reflexivity.
Defined.

Lemma ace_exec_in_foreground_witness :
  ∃ w',
    AceExecutor.exec "win32" sampleMisc string string sampleExeca sampleForeground
      CommandSample.emptyWindow
    = (inr {| AceExecutor.result := None;
              AceExecutor.returnedProject := {| path := "/c:/work/blog" |} |}, w').
Proof.
  destruct (ace_exec_in_foreground "win32" sampleMisc string string sampleExeca
              sampleForeground CommandSample.emptyWindow ltac:(reflexivity))
    as (cd & dir & node & Hexec & _).
  eexists. exact Hexec.
Defined.

Lemma execCmd_without_project_witness :
  ∃ items placeHolder,
    Command.execCmd CommandSample.linux "migration:run" true None None
      CommandSample.twoProjects
    = (Command.Failed Command.SelectionNeeded,
       addEvents CommandSample.twoProjects
         [Command.ShowQuickPick items placeHolder]).
Proof.
  exact (execCmd_without_project CommandSample.linux "migration:run" true None
           CommandSample.twoProjects
           ltac:(right; split; [discriminate|reflexivity])).
Defined.

Lemma execCmd_rewrites_the_project_path_witness :
  Command.projects
    (snd (Command.execCmd CommandSample.windows "serve --watch" false None
            (Some 1%nat) CommandSample.twoProjects))
  = [CommandSample.blog;
     {| Command.name := "shop"; Command.path := "c:/work/shop" |}].
Proof.
  destruct (execCmd_rewrites_the_project_path CommandSample.windows "serve --watch"
              false (Some 1%nat) CommandSample.twoProjects) as [_ Hwin].
  rewrite (Hwin 1%nat CommandSample.shop _ ltac:(reflexivity)). reflexivity.
Defined.

Lemma handleExecCmd_always_reports_success_witness :
  fst (Command.handleExecCmd CommandSample.linux CommandSample.typeMake None
         CommandSample.oneProject)
  = Command.Done None ∧
  successMessageOf CommandSample.linux CommandSample.typeMake
  = "File created successfully".
Proof.
  destruct (handleExecCmd_always_reports_success CommandSample.linux
              CommandSample.typeMake None CommandSample.oneProject _ _
              ltac:(vm_compute; reflexivity) ltac:(reflexivity))
    as (Hrun & _ & Hdefault).
  split; [by rewrite Hrun|].
  rewrite Hdefault; [reflexivity|by right].
Defined.

Lemma handleExecCmd_reports_failure_witness :
  fst (Command.handleExecCmd CommandSample.linux CommandSample.migrate None
         CommandSample.twoProjects)
  = Command.Done (Some false).
Proof.
  rewrite (handleExecCmd_reports_failure CommandSample.linux CommandSample.migrate
             None CommandSample.twoProjects Command.SelectionNeeded _
             ltac:(vm_compute; reflexivity)).
  reflexivity.
Defined.

Lemma handleExecCmd_cannot_open_in_foreground_witness :
  fst (Command.handleExecCmd CommandSample.linux CommandSample.serve None
         CommandSample.oneProject)
  = Command.Done None.
Proof.
  rewrite (handleExecCmd_cannot_open_in_foreground CommandSample.linux
             CommandSample.serve None CommandSample.oneProject _ _
             ltac:(reflexivity) ltac:(reflexivity) ltac:(vm_compute; reflexivity)).
  reflexivity.
Defined.

Lemma handleExecCmd_opens_the_created_file_witness :
  Command.events
    (snd (Command.handleExecCmd CommandSample.linux CommandSample.makeModel None
            CommandSample.oneProject))
  = [Command.Exec (commandLine CommandSample.linux "make:model User") "/c:/work/blog";
     Command.OpenTextDocument "/c:/work/blog/app/Models/User.ts";
     Command.ShowInformationMessage "Model created successfully";
     Command.ShowTextDocument "/c:/work/blog/app/Models/User.ts";
     Command.ExecuteCommand "workbench.files.action.refreshFilesExplorer"].
Proof.
  rewrite (handleExecCmd_opens_the_created_file CommandSample.linux
             CommandSample.makeModel None CommandSample.oneProject _
             {| Command.stdout := CommandSample.created;
                Command.stderr := EmptyString |} _
             ltac:(reflexivity) ltac:(vm_compute; reflexivity) ltac:(reflexivity)).
  vm_compute. reflexivity.
Defined.

Lemma configure_requires_a_package_name_witness :
  Command.configureRun CommandSample.linux (Some EmptyString) None
    CommandSample.oneProject
  = (Command.Done None,
     addEvents CommandSample.oneProject
       [Command.ShowInputBox "Package name to configure";
        Command.ShowErrorMessage "Package name is required."]).
Proof.
  exact (configure_requires_a_package_name CommandSample.linux (Some EmptyString)
           None CommandSample.oneProject ltac:(by right)).
Defined.

Lemma configure_types_the_command_witness :
  fst (Command.configureRun CommandSample.linux (Some "lucid") None
         CommandSample.oneProject)
  = Command.Done None.
Proof.
  destruct (configure_types_the_command CommandSample.linux "l" "ucid" None
              CommandSample.blog CommandSample.oneProject ltac:(reflexivity))
    as (Hrun & _ & _).
  rewrite Hrun. reflexivity.
Defined.
